(** * Verification of [data/import.py], the seed data generator

    The script writes two SQL files, [animals.sql] and [plants.sql].  Each
    holds a [create table] statement, a block of three hand-authored rows and
    [row_cnt = 200000] generated rows split over insert statements.

    The development has three layers of definitions:
    - [Py]: the fragment of Python's numeric tower the script uses (ints,
      binary64 floats, true division, [%], [==], [str]), over the Standard
      Library's [SpecFloat];
    - [Gen]: the script itself, in a state and exception monad over the
      module globals [category] and [elevation] and the files written;
    - [Sql]: readers of what was written (rows, fields, ids, insert
      statements), used to state what the files contain.

    The proofs first show that on integers below [2^53] the float
    operations are exact, then run the two loops by induction over their
    indices ([main_runs]), then read the resulting logs back. *)

From Stdlib Require Import ZArith List String Ascii Bool Lia.
From Stdlib Require Import DecimalFacts DecimalPos DecimalZ DecimalString.
From Stdlib Require Import Floats.SpecFloat.
Import ListNotations.

Local Open Scope string_scope.
Local Open Scope list_scope.
Local Open Scope Z_scope.

(* ===================================================================== *)
(** * Python values                                                       *)
(* ===================================================================== *)

Module Py.

(** Exceptions the modelled fragment can raise.  [Unmodelled] marks an
    operation at arguments outside the fragment of CPython described
    here; the program is proved never to reach it. *)
Inductive exn : Type :=
| ZeroDivisionError
| OverflowError
| NameError (name : string)
| ValueError (what : string)
| Unmodelled (what : string).

Inductive result (A : Type) : Type :=
| Ok (a : A)
| Raise (e : exn).
Arguments Ok {A} a.
Arguments Raise {A} e.

Definition rbind {A B} (r : result A) (k : A -> result B) : result B :=
  match r with
  | Ok a => k a
  | Raise e => Raise e
  end.

(** A Python [float] is an IEEE 754 binary64 number. *)
Definition prec : Z := 53.
Definition emax : Z := 1024.

Inductive value : Type :=
| Int (z : Z)
| Float (f : spec_float).

(** [float(z)] for an [int]: the nearest binary64, [OverflowError] when
    that is an infinity. *)
Definition float_of_int (z : Z) : result spec_float :=
  match binary_normalize prec emax z 0 false with
  | S754_infinity _ => Raise OverflowError
  | f => Ok f
  end.

(** The exact integer a float denotes, when it denotes one. *)
Definition float_to_Z (f : spec_float) : option Z :=
  match f with
  | S754_zero _ => Some 0
  | S754_finite s m e =>
      let scaled :=
        match e with
        | Z0 => Some (Zpos m)
        | Zpos p => Some (Zpos m * 2 ^ Zpos p)
        | Zneg p =>
            if Zpos m mod 2 ^ Zpos p =? 0 then Some (Zpos m / 2 ^ Zpos p)
            else None
        end in
      option_map (fun v => if s then - v else v) scaled
  | _ => None
  end.

Definition is_negative (f : spec_float) : bool :=
  match f with
  | S754_zero s | S754_infinity s | S754_finite s _ _ => s
  | S754_nan => false
  end.

(** C's [fmod]: the remainder of the truncated quotient, which is always
    representable, so it is computed exactly on the scaled mantissas. *)
Definition fmod (x y : spec_float) : spec_float :=
  match x, y with
  | S754_nan, _ | _, S754_nan => S754_nan
  | S754_infinity _, _ => S754_nan
  | _, S754_zero _ => S754_nan
  | S754_zero _, _ => x
  | S754_finite _ _ _, S754_infinity _ => x
  | S754_finite sx mx ex, S754_finite _ my ey =>
      let e := Z.min ex ey in
      let r := Z.rem (Zpos mx * 2 ^ (ex - e)) (Zpos my * 2 ^ (ey - e)) in
      binary_normalize prec emax (if sx then - r else r) e sx
  end.

Definition is_zero (f : spec_float) : bool :=
  match f with
  | S754_zero _ => true
  | _ => false
  end.

(** [float.__mod__] ([float_rem] in CPython): [fmod], then the result is
    given the sign of the divisor. *)
Definition float_rem (vx wx : spec_float) : result spec_float :=
  if is_zero wx then Raise ZeroDivisionError
  else
    let m := fmod vx wx in
    match m with
    | S754_nan => Ok m
    | S754_zero _ => Ok (S754_zero (is_negative wx))
    | _ =>
        if xorb (SFltb wx (S754_zero false)) (SFltb m (S754_zero false))
        then Ok (SFadd prec emax m wx)
        else Ok m
    end.

Definition fits_mantissa (z : Z) : bool := Z.abs z <? 2 ^ prec.

(** [a / b]: true division.  On two ints below [2^53] in magnitude
    CPython divides the two converted doubles. *)
Definition truediv (a b : value) : result value :=
  match a, b with
  | Int x, Int y =>
      if y =? 0 then Raise ZeroDivisionError
      else if fits_mantissa x && fits_mantissa y then
        rbind (float_of_int x) (fun fx =>
        rbind (float_of_int y) (fun fy =>
        Ok (Float (SFdiv prec emax fx fy))))
      else Raise (Unmodelled "true division of ints beyond 2**53")
  | Int x, Float fy =>
      if is_zero fy then Raise ZeroDivisionError
      else rbind (float_of_int x) (fun fx => Ok (Float (SFdiv prec emax fx fy)))
  | Float fx, Int y =>
      if y =? 0 then Raise ZeroDivisionError
      else rbind (float_of_int y) (fun fy => Ok (Float (SFdiv prec emax fx fy)))
  | Float fx, Float fy =>
      if is_zero fy then Raise ZeroDivisionError
      else Ok (Float (SFdiv prec emax fx fy))
  end.

(** [a % b]: floor modulo on ints; an int operand is converted when the
    other one is a float. *)
Definition mod_ (a b : value) : result value :=
  match a, b with
  | Int x, Int y =>
      if y =? 0 then Raise ZeroDivisionError else Ok (Int (x mod y))
  | Int x, Float fy =>
      rbind (float_of_int x) (fun fx =>
      rbind (float_rem fx fy) (fun r => Ok (Float r)))
  | Float fx, Int y =>
      rbind (float_of_int y) (fun fy =>
      rbind (float_rem fx fy) (fun r => Ok (Float r)))
  | Float fx, Float fy =>
      rbind (float_rem fx fy) (fun r => Ok (Float r))
  end.

(** [a == b]: numeric equality; a float equals an int when it denotes
    exactly that integer. *)
Definition eq (a b : value) : bool :=
  match a, b with
  | Int x, Int y => x =? y
  | Float f, Int y | Int y, Float f =>
      match float_to_Z f with
      | Some x => x =? y
      | None => false
      end
  | Float f, Float g => SFeqb f g
  end.

(** [str(z)] for an [int]: decimal digits, with [-] for a negative. *)
Definition str_int (z : Z) : string := NilZero.string_of_int (Z.to_int z).

(** [repr] of a float.  An integral float below [10^16] in magnitude is
    printed as its integer digits followed by [.0]. *)
Definition float_repr (f : spec_float) : result string :=
  match f with
  | S754_nan => Ok "nan"
  | S754_infinity s => Ok (if s then "-inf" else "inf")
  | S754_zero s => Ok (if s then "-0.0" else "0.0")
  | S754_finite s _ _ =>
      match float_to_Z f with
      | Some z =>
          if Z.abs z <? 10 ^ 16 then Ok (str_int z ++ ".0")%string
          else Raise (Unmodelled "repr of a float in exponent notation")
      | None => Raise (Unmodelled "repr of a float with a fraction")
      end
  end.

(** [str(v)], which is what a replacement field [{v}] of an f-string with
    no format spec produces. *)
Definition str (v : value) : result string :=
  match v with
  | Int z => Ok (str_int z)
  | Float f => float_repr f
  end.

End Py.

Import Py.

(* ===================================================================== *)
(** * The generator script                                                *)
(* ===================================================================== *)

Module Gen.

(** The newline character, written [\n] in the script. *)
Definition nl : string := String (ascii_of_nat 10) EmptyString.

(** ** Module state

    The script's assignments to [category] and [elevation] are to module
    globals, which are unbound until first assigned.  A file is the list
    of strings written to it, in order; its text is their concatenation. *)
Definition filesystem : Type := list (string * list string).

Record state : Type := mkState {
  category : option value;
  elevation : option value;
  files : filesystem
}.

Definition initial : state :=
  {| category := None; elevation := None; files := [] |}.

Fixpoint lookup (name : string) (fs : filesystem) : option (list string) :=
  match fs with
  | [] => None
  | (n, log) :: fs' => if String.eqb n name then Some log else lookup name fs'
  end.

Fixpoint upsert (name : string) (log : list string) (fs : filesystem)
  : filesystem :=
  match fs with
  | [] => [(name, log)]
  | (n, l) :: fs' =>
      if String.eqb n name then (n, log) :: fs'
      else (n, l) :: upsert name log fs'
  end.

Definition text (log : list string) : string := String.concat "" log.

(** ** The monad: state over the globals and files, with exceptions *)
Definition M (A : Type) : Type := state -> result (A * state).

Definition ret {A} (a : A) : M A := fun st => Ok (a, st).

Definition bind {A B} (c : M A) (k : A -> M B) : M B :=
  fun st =>
    match c st with
    | Ok (a, st') => k a st'
    | Raise e => Raise e
    end.

Definition lift {A} (r : result A) : M A :=
  fun st =>
    match r with
    | Ok a => Ok (a, st)
    | Raise e => Raise e
    end.

Declare Scope gen_scope.
Delimit Scope gen_scope with gen.
Notation "x <- c ;; k" := (bind c (fun x => k))
  (at level 61, c at next level, right associativity) : gen_scope.
Notation "c ;; k" := (bind c (fun _ => k))
  (at level 61, right associativity) : gen_scope.
Local Open Scope gen_scope.

(** Reading a global name. *)
Definition get_category : M value :=
  fun st =>
    match category st with
    | Some v => Ok (v, st)
    | None => Raise (NameError "category")
    end.

Definition get_elevation : M value :=
  fun st =>
    match elevation st with
    | Some v => Ok (v, st)
    | None => Raise (NameError "elevation")
    end.

Definition set_category (v : value) : M unit :=
  fun st =>
    Ok (tt, {| category := Some v; elevation := elevation st;
               files := files st |}).

Definition set_elevation (v : value) : M unit :=
  fun st =>
    Ok (tt, {| category := category st; elevation := Some v;
               files := files st |}).

(** [open(name, "w")]: the file is created, or truncated if present. *)
Definition open_w (name : string) : M unit :=
  fun st =>
    Ok (tt, {| category := category st; elevation := elevation st;
               files := upsert name [] (files st) |}).

(** [f.write(s)] on the file opened under [name]. *)
Definition write (name s : string) : M unit :=
  fun st =>
    match lookup name (files st) with
    | Some log =>
        Ok (tt, {| category := category st; elevation := elevation st;
                   files := upsert name (log ++ [s]) (files st) |})
    | None => Raise (ValueError "write to a file that is not open")
    end.

(** [for i in l: body] *)
Fixpoint for_in (l : list Z) (body : Z -> M unit) : M unit :=
  match l with
  | [] => ret tt
  | i :: l' => body i ;; for_in l' body
  end.

(** [range(n)] *)
Definition range (n : Z) : list Z := map Z.of_nat (seq 0 (Z.to_nat n)).

(** ** The script's constants *)
Definition row_cnt : Z := 200000.

(** [insert_batch_cnt = row_cnt / 20], a true division. *)
Definition insert_batch_cnt : result value := truediv (Int row_cnt) (Int 20).

Definition custom_plants : string :=
  "insert into plants values" ++ nl ++
  "  (-1,'sunflower', 3,1)," ++ nl ++
  "  (-2,'carnation',0,1)," ++ nl ++
  "  (-3,'wildflower',4,3);" ++ nl.

Definition custom_animals : string :=
  "insert into animals values" ++ nl ++
  "  (-1,'goat',2,4)," ++ nl ++
  "  (-2,'cow',1,3)," ++ nl ++
  "  (-3,'chicken',0,1);" ++ nl.

(** The two string literals the passes open with, which differ by the
    table name only: the [create table] statement, whose semicolon comes
    after a newline, and the header of an insert statement. *)
Definition create_table (table : string) : string :=
  "create table " ++ table ++
  " (id int primary key, name varchar(20), category int, elevation int, key (name), key (category), key (elevation))"
  ++ nl ++ ";".

Definition insert_header (table : string) : string :=
  "insert into " ++ table ++ " values" ++ nl.

(** [i > 0 and i % insert_batch_cnt == 0]; [and] evaluates its second
    operand only when the first is true. *)
Definition at_batch_boundary (i : Z) : M bool :=
  if 0 <? i then
    b <- lift insert_batch_cnt ;;
    m <- lift (mod_ (Int i) b) ;;
    ret (Py.eq m (Int 0))
  else ret false.

(** The [if]/[elif] that separates a row from the one before it. *)
Definition write_separator (fname table : string) (i : Z) : M unit :=
  boundary <- at_batch_boundary i ;;
  if boundary then
    write fname (";" ++ nl) ;;
    write fname (insert_header table)
  else if 0 <? i then write fname ("," ++ nl)
  else ret tt.

(** [category = i % (row_cnt / 50)] and
    [elevation = i % (row_cnt / 1000)] *)
Definition update_category (i : Z) : M unit :=
  d <- lift (truediv (Int row_cnt) (Int 50)) ;;
  c <- lift (mod_ (Int i) d) ;;
  set_category c.

Definition update_elevation (i : Z) : M unit :=
  d <- lift (truediv (Int row_cnt) (Int 1000)) ;;
  e <- lift (mod_ (Int i) d) ;;
  set_elevation e.

(** The f-string [f"  ({i},'name{i}',{category},{elevation})"]. *)
Definition row_fstring (i c e : value) : result string :=
  rbind (str i) (fun si =>
  rbind (str i) (fun sn =>
  rbind (str c) (fun sc =>
  rbind (str e) (fun se =>
  Ok ("  (" ++ si ++ ",'name" ++ sn ++ "'," ++ sc ++ "," ++ se ++ ")")%string)))).

(** [f.write(f"...")]: the names are read, the string built and written. *)
Definition write_row (fname : string) (i : Z) : M unit :=
  c <- get_category ;;
  e <- get_elevation ;;
  s <- lift (row_fstring (Int i) c e) ;;
  write fname s.

(** Body of the first loop: separator, updates, then the row. *)
Definition animals_body (i : Z) : M unit :=
  write_separator "animals.sql" "animals" i ;;
  update_category i ;;
  update_elevation i ;;
  write_row "animals.sql" i.

(** Body of the second loop: separator, the row, then the updates. *)
Definition plants_body (i : Z) : M unit :=
  write_separator "plants.sql" "plants" i ;;
  write_row "plants.sql" i ;;
  update_category i ;;
  update_elevation i.

(** The two [with open(..., "w") as f:] blocks, in the order they run. *)
Definition animals_pass : M unit :=
  open_w "animals.sql" ;;
  write "animals.sql" (create_table "animals") ;;
  write "animals.sql" custom_animals ;;
  write "animals.sql" (insert_header "animals") ;;
  for_in (range row_cnt) animals_body ;;
  write "animals.sql" (";" ++ nl).

Definition plants_pass : M unit :=
  open_w "plants.sql" ;;
  write "plants.sql" (create_table "plants") ;;
  write "plants.sql" custom_plants ;;
  write "plants.sql" (insert_header "plants") ;;
  for_in (range row_cnt) plants_body ;;
  write "plants.sql" (";" ++ nl).

(** The whole script, run as [__main__]: the constants, then the passes. *)
Definition main : M unit :=
  _ <- lift insert_batch_cnt ;;
  animals_pass ;;
  plants_pass.

End Gen.

Import Gen.
Local Open Scope gen_scope.


(* ===================================================================== *)
(** * Reading the written files                                           *)
(* ===================================================================== *)

Module Sql.

Fixpoint starts_with (p s : string) : bool :=
  match p, s with
  | EmptyString, _ => true
  | String a p', String b s' => Ascii.eqb a b && starts_with p' s'
  | String _ _, EmptyString => false
  end.

Fixpoint has_char (c : ascii) (s : string) : bool :=
  match s with
  | EmptyString => false
  | String a s' => Ascii.eqb a c || has_char c s'
  end.

Fixpoint count_char (c : ascii) (s : string) : nat :=
  match s with
  | EmptyString => O
  | String a s' => ((if Ascii.eqb a c then 1 else 0) + count_char c s')%nat
  end.

Fixpoint all_chars (P : ascii -> bool) (s : string) : bool :=
  match s with
  | EmptyString => true
  | String a s' => P a && all_chars P s'
  end.

Definition is_digit (a : ascii) : bool :=
  (48 <=? nat_of_ascii a)%nat && (nat_of_ascii a <=? 57)%nat.

(** An integer literal: digits, with an optional leading [-]. *)
Definition is_int_literal (s : string) : bool :=
  match s with
  | EmptyString => false
  | String a s' =>
      if Ascii.eqb a "-" then
        match s' with
        | EmptyString => false
        | _ => all_chars is_digit s'
        end
      else all_chars is_digit s
  end.

(** The pieces of [s] between occurrences of [sep]. *)
Fixpoint split (sep : ascii) (s : string) : list string :=
  match s with
  | EmptyString => [EmptyString]
  | String a s' =>
      if Ascii.eqb a sep then EmptyString :: split sep s'
      else
        match split sep s' with
        | [] => [String a EmptyString]
        | piece :: pieces => String a piece :: pieces
        end
  end.

(** A row is a chunk or a line that opens with two spaces and [(]. *)
Definition is_row (s : string) : bool := starts_with "  (" s.

(** [s] without its last character, when that is [c]. *)
Fixpoint strip_last (c : ascii) (s : string) : option string :=
  match s with
  | EmptyString => None
  | String a EmptyString => if Ascii.eqb a c then Some EmptyString else None
  | String a s' => option_map (String a) (strip_last c s')
  end.

(** The comma-separated fields of a row [  (f1,f2,...)]. *)
Definition row_fields (row : string) : option (list string) :=
  match row with
  | String " " (String " " (String "(" body)) =>
      option_map (split ",") (strip_last ")" body)
  | _ => None
  end.

(** The first field of a row, read as an integer.  Only the text up to
    the first comma is looked at, so a row still followed by its
    separator can be read too. *)
Definition row_id (row : string) : option Z :=
  match row with
  | String " " (String " " (String "(" body)) =>
      option_map Z.of_int (NilZero.int_of_string (hd EmptyString (split "," body)))
  | _ => None
  end.

(** A name field ['text'] without its quotes. *)
Definition unquote (field : string) : option string :=
  match field with
  | String "'" rest => strip_last "'" rest
  | _ => None
  end.

(** The text after the first [c] of [s]. *)
Fixpoint after_first (c : ascii) (s : string) : string :=
match s with
| EmptyString => EmptyString
| String a s' => if Ascii.eqb a c then s' else after_first c s'
end.

(** The text before the last [c] of [s]. *)
Fixpoint before_last (c : ascii) (s : string) : option string :=
match s with
| EmptyString => None
| String a s' =>
    match before_last c s' with
    | Some r => Some (String a r)
    | None => if Ascii.eqb a c then Some EmptyString else None
    end
end.

(** The comma-separated items a [create table] statement declares between
    its outer parentheses. *)
Definition declared_items (stmt : string) : option (list string) :=
option_map (split ",") (before_last ")" (after_first "(" stmt)).

(** The rows of a hand-authored block: its lines that are rows. *)
Definition block_rows (block : string) : list string :=
  filter is_row (split (ascii_of_nat 10) block).

(** The rows of a write log, each with the chunks written since the row
    before it. *)
Fixpoint segments_from (pending log : list string)
  : list (list string * string) :=
  match log with
  | [] => []
  | chunk :: log' =>
      if is_row chunk then (pending, chunk) :: segments_from [] log'
      else segments_from (pending ++ [chunk]) log'
  end.

Definition segments (log : list string) : list (list string * string) :=
  segments_from [] log.

Definition rows (log : list string) : list string := map snd (segments log).

(** ** Reading insert statements

    The reader accepts a log made of statements of the form: the
    [insert into <table> values] header, one or more rows separated by a
    comma chunk, one semicolon chunk.  It returns the rows of each
    statement, and nothing for any other log. *)
Inductive reading : Type :=
| Outside
| ExpectRow (rows : list string)
| AfterRow (rows : list string).

Definition reader : Type := (reading * list (list string))%type.

Definition read_chunk (table : string) (st : reader) (chunk : string)
  : option reader :=
  let '(q, done) := st in
  match q with
  | Outside =>
      if String.eqb chunk (Gen.insert_header table)
      then Some (ExpectRow [], done) else None
  | ExpectRow rs =>
      if is_row chunk then Some (AfterRow (rs ++ [chunk]), done) else None
  | AfterRow rs =>
      if String.eqb chunk ("," ++ Gen.nl) then Some (ExpectRow rs, done)
      else if String.eqb chunk (";" ++ Gen.nl) then Some (Outside, done ++ [rs])
      else None
  end.

Fixpoint feed (table : string) (st : reader) (log : list string)
  : option reader :=
  match log with
  | [] => Some st
  | chunk :: log' =>
      match read_chunk table st chunk with
      | Some st' => feed table st' log'
      | None => None
      end
  end.

Definition read_inserts (table : string) (log : list string)
  : option (list (list string)) :=
  match feed table (Outside, []) log with
  | Some (Outside, done) => Some done
  | _ => None
  end.

(** The text of one insert statement over the given rows. *)
Definition render_insert (table : string) (rs : list string) : string :=
  Gen.insert_header table ++ String.concat ("," ++ Gen.nl) rs ++ ";" ++ Gen.nl.

(** [s] ends with [suffix]. *)
Fixpoint ends_with (suffix s : string) : bool :=
String.eqb s suffix
|| match s with
   | EmptyString => false
   | String _ s' => ends_with suffix s'
   end.

(** A statement's text closed by exactly one semicolon: it has a single
    semicolon, and ends with it or with it and a newline. *)
Definition closed_once (s : string) : bool :=
Nat.eqb (count_char ";" s) 1
&& (ends_with ";" s || ends_with (";" ++ Gen.nl) s).

(** The text read so far of the statement the reader is in. *)
Definition pending_text (table : string) (q : reading) : string :=
match q with
| Outside => ""
| ExpectRow rs =>
    Gen.insert_header table ++
    match rs with
    | [] => ""
    | _ => String.concat ("," ++ Gen.nl) rs ++ "," ++ Gen.nl
    end
| AfterRow rs => Gen.insert_header table ++ String.concat ("," ++ Gen.nl) rs
end.

(** A reader between two rows has read a row. *)
Definition reading_wf (q : reading) : Prop :=
match q with
| AfterRow rs => rs <> []
| _ => True
end.

Definition render_inserts (table : string) (stmts : list (list string)) : string :=
Gen.text (map (render_insert table) stmts).

(** ** Reading the values of a row *)

(** A field [digits.0] read as the integer it denotes. *)
Definition read_decimal (field : string) : option Z :=
match strip_last "0" field with
| Some s1 =>
    match strip_last "." s1 with
    | Some s2 => option_map Z.of_int (NilZero.int_of_string s2)
    | None => None
    end
| None => None
end.

(** The category and the elevation of a row. *)
Definition row_values (row : string) : option (Z * Z) :=
match row_fields row with
| Some [_; _; c; e] =>
    match read_decimal c, read_decimal e with
    | Some c', Some e' => Some (c', e')
    | _, _ => None
    end
| _ => None
end.

(** The name of a row, without its quotes. *)
Definition row_name (row : string) : option string :=
match row_fields row with
| Some [_; quoted; _; _] => unquote quoted
| _ => None
end.

Definition has_category (c : Z) (row : string) : bool :=
match row_values row with
| Some (c', _) => Z.eqb c' c
| None => false
end.

Definition has_elevation (e : Z) (row : string) : bool :=
match row_values row with
| Some (_, e') => Z.eqb e' e
| None => false
end.

End Sql.

Import Sql.

(* ===================================================================== *)
(** * What the script is expected to write                                *)
(* ===================================================================== *)

(** The float denoting the integer [z] (exact when [|z| < 2^53]). *)
Definition F (z : Z) : spec_float := binary_normalize prec emax z 0 false.

(** The run writes [log] to the file [name]. *)
Definition Produces (name : string) (log : list string) : Prop :=
  exists st, main initial = Ok (tt, st) /\ lookup name (files st) = Some log.

(** [row] is generated row number [i] (from 0) of the file [name]. *)
Definition Row (name : string) (i : Z) (row : string) : Prop :=
  exists log, Produces name log /\ nth_error (rows log) (Z.to_nat i) = Some row.

(** Generated row number [i] of the file [name] is [row], and [before] is
    what was written between it and the row before. *)
Definition Segment (name : string) (i : Z) (before : list string) (row : string)
  : Prop :=
  exists log,
    Produces name log
    /\ nth_error (segments log) (Z.to_nat i) = Some (before, row).

(** The file [name] for [table] is a [create table] chunk and the
    hand-authored block [custom], each closed by one semicolon, followed by
    insert statements that each hold at least one row and are closed by
    one semicolon; the file has as many semicolons as statements. *)
Definition statements_closed (name table custom : string) : Prop :=
  exists log stmts,
    Produces name log
    /\ firstn 2 log = [create_table table; custom]
    /\ read_inserts table (skipn 2 log) = Some stmts
    /\ text log = (create_table table ++ custom ++ render_inserts table stmts)%string
    /\ closed_once (create_table table) = true
    /\ closed_once custom = true
    /\ Forall (fun rs => rs <> []
                         /\ closed_once (render_insert table rs) = true) stmts
    /\ count_char ";" (text log) = (2 + List.length stmts)%nat.

(** The file [name] opens with the [create table] statement of [table] and
    the hand-authored block [custom]; all that follows is insert
    statements, whose rows are the [row_cnt] generated rows. *)
Definition schema_then_rows (name table custom : string) : Prop :=
  exists log rest stmts,
    Produces name log
    /\ log = create_table table :: custom :: rest
    /\ read_inserts table rest = Some stmts
    /\ List.concat stmts = rows log
    /\ List.length (rows log) = Z.to_nat row_cnt.

(** The generated rows of the file [name] are read as [n] insert
    statements of [size] rows each, which together are all its rows. *)
Definition batched (name table : string) (n size : Z) : Prop :=
  exists log stmts,
    Produces name log
    /\ read_inserts table (skipn 2 log) = Some stmts
    /\ Z.of_nat (List.length stmts) = n
    /\ Forall (fun rs => Z.of_nat (List.length rs) = size) stmts
    /\ List.concat stmts = rows log.

(** The generated rows of the file [name] have the ids of [range row_cnt],
    in that order; the rows of its hand-authored block [custom] have the
    ids -1, -2, -3; no id occurs twice in the file. *)
Definition ids_distinct (name custom : string) : Prop :=
  exists log,
    Produces name log
    /\ map row_id (rows log) = map Some (range row_cnt)
    /\ map row_id (block_rows custom) = [Some (-1); Some (-2); Some (-3)]
    /\ NoDup (map row_id (block_rows custom ++ rows log)).

(** The category and elevation of index [i]: the integers the two updates
    compute for it. *)
Definition values_at (i : Z) : Z * Z :=
  (i mod (row_cnt / 50), i mod (row_cnt / 1000)).

(** [n] generated rows of the file [name] satisfy [p]. *)
Definition occurrences (name : string) (p : string -> bool) (n : nat) : Prop :=
  exists log, Produces name log /\ List.length (filter p (rows log)) = n.

(** The text of a generated row with id [i] whose category and elevation
    are the floats denoting the integers [c] and [e]. *)
Definition row_text (i c e : Z) : string :=
  "  (" ++ str_int i ++ ",'name" ++ str_int i ++ "',"
        ++ str_int c ++ ".0," ++ str_int e ++ ".0)".

(** What precedes row [i] within the generated block. *)
Definition separator (table : string) (i : Z) : list string :=
  if (0 <? i) && (i mod (row_cnt / 20) =? 0)
  then [(";" ++ nl)%string; insert_header table]
  else if 0 <? i then [("," ++ nl)%string] else [].

(** Row [i] of [animals.sql]: category and elevation of [i] itself. *)
Definition animals_row (i : Z) : string :=
  row_text i (i mod (row_cnt / 50)) (i mod (row_cnt / 1000)).

(** Row [i] of [plants.sql]: category and elevation of the iteration
    before, which for row [0] is the last iteration of the first loop. *)
Definition plants_row (i : Z) : string :=
  if i =? 0
  then row_text 0 ((row_cnt - 1) mod (row_cnt / 50))
                  ((row_cnt - 1) mod (row_cnt / 1000))
  else row_text i ((i - 1) mod (row_cnt / 50)) ((i - 1) mod (row_cnt / 1000)).

Definition generated (table : string) (rowf : Z -> string) (l : list Z)
  : list string :=
  flat_map (fun i => separator table i ++ [rowf i]) l.

Definition expected_log (table custom : string) (rowf : Z -> string)
  : list string :=
  [create_table table; custom; insert_header table]
    ++ generated table rowf (range row_cnt) ++ [(";" ++ nl)%string].

(** What is written before row [i] since the row before it: the three
    header chunks for the first row, the separator for the others. *)
Definition preceding (table custom : string) (i : Z) : list string :=
  if i =? 0 then [create_table table; custom; insert_header table]
  else separator table i.

(** Chunks of the second loop over [l], entered with category [c] and
    elevation [e]: each row carries the values left by the row before. *)
Fixpoint plants_chunks (c e : Z) (l : list Z) : list string :=
  match l with
  | [] => []
  | i :: l' =>
      (separator "plants" i ++ [row_text i c e])
        ++ plants_chunks (i mod (row_cnt / 50)) (i mod (row_cnt / 1000)) l'
  end.

(** The values of [category] and [elevation] after iterating over [l]. *)
Definition final_values (l : list Z) (ce : option value * option value)
  : option value * option value :=
  fold_left
    (fun _ i => (Some (Float (F (i mod (row_cnt / 50)))),
                 Some (Float (F (i mod (row_cnt / 1000))))))
    l ce.

(* ===================================================================== *)
(** * Binary64 facts                                                      *)
(* ===================================================================== *)

(** [SpecFloat] is stated over the core integer operations; [zfold] names
    them as the [Z] module does, so that [Z] lemmas rewrite. *)
Ltac zfold :=
  repeat first
    [ progress change IntDef.Z.sub with Z.sub in *
    | progress change IntDef.Z.add with Z.add in *
    | progress change IntDef.Z.mul with Z.mul in *
    | progress change IntDef.Z.opp with Z.opp in *
    | progress change IntDef.Z.max with Z.max in *
    | progress change IntDef.Z.min with Z.min in *
    | progress change IntDef.Z.leb with Z.leb in *
    | progress change IntDef.Z.ltb with Z.ltb in *
    | progress change IntDef.Z.eqb with Z.eqb in *
    | progress change IntDef.Z.compare with Z.compare in * ].

Section Binary64.

Lemma digits2_pos_size (p : positive) : digits2_pos p = Pos.size p.
Proof. induction p; simpl; congruence. Qed.

(** [d] is the bit length of [p] exactly when [2^(d-1) <= p < 2^d]. *)
Lemma digits_bounds (p : positive) :
  2 ^ (Zpos (digits2_pos p) - 1) <= Zpos p < 2 ^ Zpos (digits2_pos p).
Proof.
  rewrite digits2_pos_size. split.
  - pose proof (Pos.size_le p) as H.
    assert (Hs : 2 ^ Zpos (Pos.size p) <= 2 * Zpos p).
    { rewrite <- Pos2Z.inj_pow. change (2 * Zpos p) with (Zpos p~0).
      apply Pos2Z.pos_le_pos. exact H. }
    replace (Zpos (Pos.size p)) with (Zpos (Pos.size p) - 1 + 1) in Hs by lia.
    rewrite Z.pow_add_r in Hs by lia. lia.
  - pose proof (Pos.size_gt p) as H.
    rewrite <- Pos2Z.inj_pow. apply Pos2Z.pos_lt_pos. exact H.
Qed.

Lemma digits_unique (p : positive) (d : Z) :
  2 ^ (d - 1) <= Zpos p < 2 ^ d -> Zpos (digits2_pos p) = d.
Proof.
  intros [Hl Hu]. pose proof (digits_bounds p) as [Hl' Hu'].
  assert (0 < d).
  { destruct (Z.ltb_spec 0 d) as [|Hd]; [assumption | exfalso].
    destruct (Z.eq_dec d 0) as [-> | Hn]; [simpl in Hu; lia |].
    rewrite Z.pow_neg_r in Hu by lia. lia. }
  destruct (Z.lt_trichotomy (Zpos (digits2_pos p)) d) as [Hlt | [Heq | Hgt]];
    [exfalso | assumption | exfalso].
  - assert (2 ^ Zpos (digits2_pos p) <= 2 ^ (d - 1))
      by (apply Z.pow_le_mono_r; lia).
    lia.
  - assert (2 ^ d <= 2 ^ (Zpos (digits2_pos p) - 1))
      by (apply Z.pow_le_mono_r; lia).
    lia.
Qed.

Lemma digits_mono (p q : positive) :
  (p <= q)%positive -> Zpos (digits2_pos p) <= Zpos (digits2_pos q).
Proof.
  intros Hpq. pose proof (digits_bounds p) as [Hl _].
  pose proof (digits_bounds q) as [_ Hu].
  destruct (Z.leb_spec (Zpos (digits2_pos p)) (Zpos (digits2_pos q)));
    [assumption | exfalso].
  assert (2 ^ Zpos (digits2_pos q) <= 2 ^ (Zpos (digits2_pos p) - 1))
    by (apply Z.pow_le_mono_r; lia).
  assert (Zpos p <= Zpos q) by (apply Pos2Z.pos_le_pos; exact Hpq).
  lia.
Qed.

Lemma digits_scaled (p : positive) (k : Z) :
  0 <= k ->
  Zpos (digits2_pos (Z.to_pos (Zpos p * 2 ^ k))) = Zpos (digits2_pos p) + k.
Proof.
  intros Hk. apply digits_unique.
  pose proof (digits_bounds p) as [Hl Hu].
  assert (0 < 2 ^ k) by (apply Z.pow_pos_nonneg; lia).
  rewrite Z2Pos.id by nia.
  replace (Zpos (digits2_pos p) + k - 1) with (Zpos (digits2_pos p) - 1 + k) by lia.
  rewrite !Z.pow_add_r by lia. nia.
Qed.

Lemma iter_xO_scaled (p d : positive) :
  Pos.iter xO p d = Z.to_pos (Zpos p * 2 ^ Zpos d).
Proof.
  apply Pos2Z.inj.
  assert (0 < 2 ^ Zpos d) by (apply Z.pow_pos_nonneg; lia).
  rewrite Z2Pos.id by nia.
  revert p. induction d using Pos.peano_ind; intros p.
  - simpl. lia.
  - rewrite Pos.iter_succ, Pos2Z.inj_succ, Z.pow_succ_r by lia.
    change (Zpos (Pos.iter xO p d)~0) with (2 * Zpos (Pos.iter xO p d)).
    rewrite IHd by (apply Z.pow_pos_nonneg; lia). lia.
Qed.

(** A mantissa of full width in the exponent range is already rounded. *)
Lemma round_aux_exact (s : bool) (m : positive) (e : Z) :
  Zpos (digits2_pos m) = 53 -> -1074 <= e <= 971 ->
  binary_round_aux prec emax s (Zpos m) e loc_Exact = S754_finite s m e.
Proof.
  intros Hd He.
  assert (Hshift : fexp prec emax (Zdigits2 (Zpos m) + e) - e = 0).
  { unfold fexp, SpecFloat.emin, prec, emax. simpl Zdigits2. lia. }
  unfold binary_round_aux, shr_fexp. zfold.
  rewrite Hshift.
  cbn [shr shr_record_of_loc round_nearest_even loc_of_shr_record
       shr_m shr_r shr_s].
  rewrite Hshift. cbn [shr shr_m].
  destruct (Z.leb_spec e (emax - prec)) as [_ | Hgt]; [reflexivity |].
  unfold emax, prec in Hgt. lia.
Qed.

(** Rounding a mantissa of at most 53 bits only realigns it. *)
Lemma binary_round_small (s : bool) (m : positive) (e : Z) :
  Zpos (digits2_pos m) <= 53 ->
  -1074 <= e + Zpos (digits2_pos m) - 53 -> e + Zpos (digits2_pos m) <= 1024 ->
  binary_round prec emax s m e =
  S754_finite s (Z.to_pos (Zpos m * 2 ^ (53 - Zpos (digits2_pos m))))
              (e + Zpos (digits2_pos m) - 53).
Proof.
  intros Hd Hlo Hhi. unfold binary_round. zfold.
  assert (Hf : fexp prec emax (Zpos (digits2_pos m) + e)
               = e + Zpos (digits2_pos m) - 53).
  { unfold fexp, SpecFloat.emin, prec, emax. lia. }
  rewrite Hf. unfold shl_align.
  destruct (e + Zpos (digits2_pos m) - 53 - e) as [ | q | q] eqn:Hq.
  - replace (53 - Zpos (digits2_pos m)) with 0 by lia.
    replace (e + Zpos (digits2_pos m) - 53) with e by lia.
    rewrite Z.mul_1_r. simpl Z.to_pos.
    apply round_aux_exact; lia.
  - lia.
  - rewrite iter_xO_scaled.
    replace (53 - Zpos (digits2_pos m)) with (Zpos q) by lia.
    apply round_aux_exact; [| lia].
    rewrite digits_scaled; lia.
Qed.

(** The integer [p < 2^53] as a float: [p] aligned to 53 bits. *)
Lemma F_pos (p : positive) :
  Zpos p < 2 ^ 53 ->
  F (Zpos p) =
  S754_finite false (Z.to_pos (Zpos p * 2 ^ (53 - Zpos (digits2_pos p))))
              (Zpos (digits2_pos p) - 53).
Proof.
  intros Hp. unfold F, binary_normalize.
  assert (Hd : Zpos (digits2_pos p) <= 53).
  { pose proof (digits_bounds p) as [Hl _].
    destruct (Z.leb_spec (Zpos (digits2_pos p)) 53); [assumption | exfalso].
    assert (2 ^ 53 <= 2 ^ (Zpos (digits2_pos p) - 1))
      by (apply Z.pow_le_mono_r; lia).
    lia. }
  rewrite binary_round_small by lia.
  f_equal.
Qed.

(** [z * 2^k] at exponent [-k] is the same float when it fits. *)
Lemma normalize_scaled (p : positive) (k : Z) :
  0 <= k -> Zpos (digits2_pos p) + k <= 53 ->
  binary_normalize prec emax (Zpos p * 2 ^ k) (- k) false = F (Zpos p).
Proof.
  intros Hk Hd.
  assert (Hp : Zpos p < 2 ^ 53).
  { pose proof (digits_bounds p) as [_ Hu].
    assert (2 ^ Zpos (digits2_pos p) <= 2 ^ 53)
      by (apply Z.pow_le_mono_r; lia).
    lia. }
  rewrite F_pos by assumption.
  assert (Hpow : 0 < 2 ^ k) by (apply Z.pow_pos_nonneg; lia).
  destruct (Zpos p * 2 ^ k) as [ | q | q] eqn:Hq; try lia.
  unfold binary_normalize.
  assert (Hdq : Zpos (digits2_pos q) = Zpos (digits2_pos p) + k).
  { rewrite <- digits_scaled by assumption. rewrite Hq. reflexivity. }
  rewrite binary_round_small by lia.
  rewrite Hdq, <- Hq. f_equal.
  - f_equal. rewrite <- Z.mul_assoc, <- Z.pow_add_r by lia.
    do 2 f_equal. lia.
  - lia.
Qed.

Lemma digits_le_53 (p : positive) :
  Zpos p < 2 ^ 53 -> Zpos (digits2_pos p) <= 53.
Proof.
  intros Hp. pose proof (digits_bounds p) as [Hl _].
  destruct (Z.leb_spec (Zpos (digits2_pos p)) 53); [assumption | exfalso].
  assert (2 ^ 53 <= 2 ^ (Zpos (digits2_pos p) - 1))
    by (apply Z.pow_le_mono_r; lia).
  lia.
Qed.

Lemma float_of_int_F (z : Z) :
  0 <= z < 2 ^ 53 -> float_of_int z = Ok (F z).
Proof.
  intros Hz. unfold float_of_int. fold (F z).
  destruct z as [ | p | p]; [reflexivity | | lia].
  rewrite F_pos by lia. reflexivity.
Qed.

Lemma float_to_Z_F (z : Z) :
  0 <= z < 2 ^ 53 -> float_to_Z (F z) = Some z.
Proof.
  intros Hz. destruct z as [ | p | p]; [reflexivity | | lia].
  rewrite F_pos by lia.
  pose proof (digits_le_53 p (proj2 Hz)) as Hd.
  assert (Hpow : 0 < 2 ^ (53 - Zpos (digits2_pos p)))
    by (apply Z.pow_pos_nonneg; lia).
  unfold float_to_Z.
  destruct (Zpos (digits2_pos p) - 53) as [ | q | q] eqn:Hq; try lia.
  - replace (53 - Zpos (digits2_pos p)) with 0 by lia.
    simpl. f_equal. lia.
  - replace (53 - Zpos (digits2_pos p)) with (Zpos q) in * by lia.
    rewrite Z2Pos.id by nia.
    rewrite Z.mod_mul by lia. rewrite Z.eqb_refl.
    rewrite Z.div_mul by lia. reflexivity.
Qed.

(** On integers below [2^53], [fmod] is the integer remainder. *)
Lemma fmod_F (i n : Z) :
  0 <= i < 2 ^ 53 -> 0 < n < 2 ^ 53 -> fmod (F i) (F n) = F (i mod n).
Proof.
  intros Hi Hn.
  destruct n as [ | q | q]; try lia.
  destruct i as [ | p | p]; try lia.
  { rewrite Z.mod_0_l by lia. rewrite F_pos by lia. reflexivity. }
  rewrite !F_pos by lia.
  pose proof (digits_le_53 p (proj2 Hi)) as Hdp.
  pose proof (digits_le_53 q (proj2 Hn)) as Hdq.
  set (dp := Zpos (digits2_pos p)) in *.
  set (dq := Zpos (digits2_pos q)) in *.
  assert (Hpp : 0 < 2 ^ (53 - dp)) by (apply Z.pow_pos_nonneg; lia).
  assert (Hpq : 0 < 2 ^ (53 - dq)) by (apply Z.pow_pos_nonneg; lia).
  unfold fmod.
  rewrite !Z2Pos.id by nia.
  set (e := Z.min (dp - 53) (dq - 53)).
  assert (He : 0 <= - e) by (unfold e; lia).
  assert (Hx : Zpos p * 2 ^ (53 - dp) * 2 ^ (dp - 53 - e) = Zpos p * 2 ^ (- e)).
  { rewrite <- Z.mul_assoc, <- Z.pow_add_r by (unfold e; lia).
    do 2 f_equal. lia. }
  assert (Hy : Zpos q * 2 ^ (53 - dq) * 2 ^ (dq - 53 - e) = Zpos q * 2 ^ (- e)).
  { rewrite <- Z.mul_assoc, <- Z.pow_add_r by (unfold e; lia).
    do 2 f_equal. lia. }
  rewrite Hx, Hy.
  assert (Hpe : 0 < 2 ^ (- e)) by (apply Z.pow_pos_nonneg; lia).
  rewrite Z.rem_mod_nonneg by nia.
  rewrite Z.mul_mod_distr_r by lia.
  pose proof (Z.mod_pos_bound (Zpos p) (Zpos q) ltac:(lia)) as Hr.
  destruct (Zpos p mod Zpos q) as [ | r | r] eqn:Hrem; try lia.
  - reflexivity.
  - replace e with (- (- e)) at 2 by lia.
    apply normalize_scaled; [lia |].
    assert (Zpos (digits2_pos r) <= dp).
    { apply digits_mono.
      pose proof (Z.mod_le (Zpos p) (Zpos q) ltac:(lia) ltac:(lia)). lia. }
    assert (Zpos (digits2_pos r) <= dq).
    { apply digits_mono. lia. }
    unfold e. lia.
Qed.

Lemma F_classify (z : Z) :
  0 <= z < 2 ^ 53 ->
  F z = S754_zero false \/ exists m e, F z = S754_finite false m e.
Proof.
  intros Hz. destruct z as [ | p | p]; [left; reflexivity | | lia].
  right. rewrite F_pos by lia. eauto.
Qed.

Lemma float_rem_F (i n : Z) :
  0 <= i < 2 ^ 53 -> 0 < n < 2 ^ 53 ->
  float_rem (F i) (F n) = Ok (F (i mod n)).
Proof.
  intros Hi Hn. unfold float_rem.
  rewrite fmod_F by assumption.
  assert (Hr : 0 <= i mod n < 2 ^ 53).
  { pose proof (Z.mod_pos_bound i n ltac:(lia)). lia. }
  destruct n as [ | q | q]; try lia.
  rewrite (F_pos q) by lia. cbn [is_zero is_negative].
  destruct (F_classify _ Hr) as [-> | (m & e & ->)]; reflexivity.
Qed.

(** [i % n] for an int [i] and the float [n]. *)
Lemma mod_int_float (i n : Z) :
  0 <= i < 2 ^ 53 -> 0 < n < 2 ^ 53 ->
  mod_ (Int i) (Float (F n)) = Ok (Float (F (i mod n))).
Proof.
  intros Hi Hn. unfold mod_.
  rewrite float_of_int_F by assumption. cbn [rbind].
  rewrite float_rem_F by assumption. reflexivity.
Qed.

Lemma eq_F_int (z y : Z) :
  0 <= z < 2 ^ 53 -> Py.eq (Float (F z)) (Int y) = (z =? y).
Proof.
  intros Hz. unfold Py.eq. rewrite float_to_Z_F by assumption. reflexivity.
Qed.

(** An integral float prints as the integer followed by [.0]. *)
Lemma str_F (z : Z) :
  0 <= z < 2 ^ 53 -> str (Float (F z)) = Ok (str_int z ++ ".0")%string.
Proof.
  intros Hz. unfold str.
  destruct (F_classify _ Hz) as [H0 | (m & e & Hm)].
  - destruct z as [ | p | p]; [reflexivity | | lia].
    rewrite F_pos in H0 by lia. discriminate.
  - unfold float_repr. rewrite Hm, <- Hm, float_to_Z_F by assumption.
    destruct (Z.ltb_spec (Z.abs z) (10 ^ 16)) as [_ | Hbig]; [reflexivity |].
    assert (2 ^ 53 < 10 ^ 16) by reflexivity. lia.
Qed.

End Binary64.

(* ===================================================================== *)
(** * Strings                                                             *)
(* ===================================================================== *)

Section Text.

Lemma append_assoc (a b c : string) :
  ((a ++ b) ++ c = a ++ (b ++ c))%string.
Proof. induction a; simpl; congruence. Qed.

Lemma append_nil_r (a : string) : (a ++ "")%string = a.
Proof. induction a; simpl; congruence. Qed.

Lemma length_append (a b : string) :
  String.length (a ++ b) = (String.length a + String.length b)%nat.
Proof. induction a; simpl; congruence. Qed.

Lemma has_char_append (ch : ascii) (a b : string) :
  has_char ch (a ++ b) = has_char ch a || has_char ch b.
Proof.
  induction a; simpl; [reflexivity |].
  rewrite IHa, orb_assoc. reflexivity.
Qed.

Lemma text_app (l1 l2 : list string) :
  text (l1 ++ l2) = (text l1 ++ text l2)%string.
Proof.
  unfold text. induction l1 as [ | a l1 IH]; [reflexivity |].
  destruct l1 as [ | b l1].
  - destruct l2; simpl; [rewrite append_nil_r |]; reflexivity.
  - change (String.concat "" (a :: (b :: l1) ++ l2)
            = (a ++ "" ++ String.concat "" (b :: l1)) ++ String.concat "" l2)%string.
    change (String.concat "" (a :: (b :: l1) ++ l2))
      with (a ++ "" ++ String.concat "" ((b :: l1) ++ l2))%string.
    rewrite IH, append_assoc. reflexivity.
Qed.

Lemma text_cons (a : string) (l : list string) :
  text (a :: l) = (a ++ text l)%string.
Proof. apply (text_app [a] l). Qed.

End Text.

(* ===================================================================== *)
(** * Decimal digits                                                      *)
(* ===================================================================== *)

Section Digits.

Lemma uint_digits (d : Decimal.uint) :
  all_chars is_digit (NilEmpty.string_of_uint d) = true.
Proof. induction d; simpl; auto. Qed.

Lemma uint_length (d : Decimal.uint) :
  String.length (NilEmpty.string_of_uint d) = Decimal.nb_digits d.
Proof. induction d; simpl; congruence. Qed.

(** [str_int] of a natural number: its digits, or [0]. *)
Lemma str_int_nonneg (z : Z) :
  0 <= z ->
  exists d, d <> Decimal.Nil /\ Z.to_int z = Decimal.Pos d
            /\ str_int z = NilEmpty.string_of_uint d.
Proof.
  intros Hz. destruct z as [ | p | p]; [| | lia].
  - exists Decimal.zero. repeat split. discriminate.
  - exists (Pos.to_uint p). split; [apply Unsigned.to_uint_nonnil |].
    split; [reflexivity |].
    unfold str_int. simpl.
    pose proof (Unsigned.to_uint_nonnil p).
    destruct (Pos.to_uint p); [congruence | reflexivity ..].
Qed.

Lemma str_int_digits (z : Z) :
  0 <= z -> all_chars is_digit (str_int z) = true.
Proof.
  intros Hz. destruct (str_int_nonneg z Hz) as (d & _ & _ & ->).
  apply uint_digits.
Qed.

Lemma digits_no_char (ch : ascii) (s : string) :
  is_digit ch = false -> all_chars is_digit s = true -> has_char ch s = false.
Proof.
  intros Hch. induction s as [ | a s IH]; simpl; [reflexivity |].
  intros H. apply andb_prop in H. destruct H as [Ha Hs].
  rewrite (IH Hs), orb_false_r.
  destruct (Ascii.eqb_spec a ch) as [-> | _]; [congruence | reflexivity].
Qed.

Lemma str_int_no_char (ch : ascii) (z : Z) :
  is_digit ch = false -> 0 <= z -> has_char ch (str_int z) = false.
Proof.
  intros Hch Hz. apply digits_no_char; [assumption |].
  apply str_int_digits. assumption.
Qed.

(** Reading back what [str_int] prints. *)
Lemma read_str_int (z : Z) :
  0 <= z -> option_map Z.of_int (NilZero.int_of_string (str_int z)) = Some z.
Proof.
  intros Hz. unfold str_int. rewrite NilZero.isi.
  - simpl. f_equal. apply DecimalZ.of_to.
  - destruct (str_int_nonneg z Hz) as (d & Hd & -> & _). congruence.
  - destruct (str_int_nonneg z Hz) as (d & Hd & -> & _). discriminate.
Qed.

Lemma of_uint_acc_lower (d : Decimal.uint) :
  forall acc,
    Zpos acc * 10 ^ Z.of_nat (Decimal.nb_digits d) <= Zpos (Pos.of_uint_acc d acc).
Proof.
  induction d; intros acc;
    cbn [Decimal.nb_digits Pos.of_uint_acc];
    [ simpl; lia | .. ];
    rewrite Nat2Z.inj_succ, Z.pow_succ_r by lia;
    match goal with
    | |- _ <= Zpos (Pos.of_uint_acc _ ?a) =>
        specialize (IHd a);
        assert (0 < 10 ^ Z.of_nat (Decimal.nb_digits d))
          by (apply Z.pow_pos_nonneg; lia);
        nia
    end.
Qed.

(** A numeral without leading zeros is at least [10^(digits - 1)]. *)
Lemma of_uint_lower (d : Decimal.uint) :
  Decimal.nzhead d <> Decimal.Nil ->
  10 ^ (Z.of_nat (Decimal.nb_digits (Decimal.nzhead d)) - 1)
  <= Z.of_N (Pos.of_uint d).
Proof.
  induction d; intros Hnz;
    [ simpl in Hnz; congruence | exact (IHd Hnz) | .. ];
    cbn [Decimal.nzhead Decimal.nb_digits Pos.of_uint Z.of_N];
    rewrite Nat2Z.inj_succ;
    replace (Z.succ (Z.of_nat (Decimal.nb_digits d)) - 1)
      with (Z.of_nat (Decimal.nb_digits d)) by lia;
    match goal with
    | |- _ <= Zpos (Pos.of_uint_acc _ ?a) =>
        pose proof (of_uint_acc_lower d a);
        assert (0 < 10 ^ Z.of_nat (Decimal.nb_digits d))
          by (apply Z.pow_pos_nonneg; lia);
        nia
    end.
Qed.

Lemma to_uint_nzhead (p : positive) :
  Decimal.nzhead (Pos.to_uint p) = Pos.to_uint p.
Proof.
  pose proof (Unsigned.to_of (Pos.to_uint p)) as H.
  rewrite Unsigned.of_to in H. simpl in H.
  unfold Decimal.unorm in H.
  destruct (Decimal.nzhead (Pos.to_uint p)) eqn:E; try (symmetry; exact H).
  exfalso. apply (Unsigned.to_uint_nonzero p). congruence.
Qed.

(** A natural number below [10^k] prints in at most [k] characters. *)
Lemma str_int_length (z : Z) (k : nat) :
  0 <= z < 10 ^ Z.of_nat k -> (1 <= k)%nat ->
  (String.length (str_int z) <= k)%nat.
Proof.
  intros Hz Hk. destruct z as [ | p | p]; [simpl; lia | | lia].
  destruct (str_int_nonneg (Zpos p)) as (d & Hd & Hint & ->); [lia |].
  injection Hint as <-.
  rewrite uint_length.
  pose proof (of_uint_lower (Pos.to_uint p)) as Hlow.
  rewrite to_uint_nzhead, Unsigned.of_to in Hlow.
  specialize (Hlow (Unsigned.to_uint_nonnil p)). simpl Z.of_N in Hlow.
  destruct (Nat.leb_spec (Decimal.nb_digits (Pos.to_uint p)) k) as [ | Hgt];
    [assumption | exfalso].
  assert (10 ^ Z.of_nat k
          <= 10 ^ (Z.of_nat (Decimal.nb_digits (Pos.to_uint p)) - 1))
    by (apply Z.pow_le_mono_r; lia).
  lia.
Qed.

End Digits.

(* ===================================================================== *)
(** * Running the script                                                  *)
(* ===================================================================== *)

Arguments range : simpl never.

Section Files.

Lemma lookup_upsert (name : string) (log : list string) (fs : filesystem) :
  lookup name (upsert name log fs) = Some log.
Proof.
  induction fs as [ | [n l] fs IH]; simpl.
  - rewrite String.eqb_refl. reflexivity.
  - destruct (String.eqb n name) eqn:E; simpl; rewrite E; auto.
Qed.

Lemma upsert_upsert (name : string) (l1 l2 : list string) (fs : filesystem) :
  upsert name l2 (upsert name l1 fs) = upsert name l2 fs.
Proof.
  induction fs as [ | [n l] fs IH]; simpl.
  - rewrite String.eqb_refl. reflexivity.
  - destruct (String.eqb n name) eqn:E; simpl; rewrite E; congruence.
Qed.

Lemma upsert_same (name : string) (log : list string) (fs : filesystem) :
  lookup name fs = Some log -> upsert name log fs = fs.
Proof.
  induction fs as [ | [n l] fs IH]; simpl; [discriminate |].
  destruct (String.eqb n name) eqn:E; intros H.
  - congruence.
  - rewrite IH by assumption. reflexivity.
Qed.

Lemma write_ok (name s : string) c e fs log :
  lookup name fs = Some log ->
  write name s (mkState c e fs) =
  Ok (tt, mkState c e (upsert name (log ++ [s]) fs)).
Proof. intros H. unfold write. simpl. rewrite H. reflexivity. Qed.

(** Two writes in a row. *)
Lemma write_write (name s1 s2 : string) c e fs log :
  lookup name fs = Some log ->
  (write name s1 ;; write name s2) (mkState c e fs) =
  Ok (tt, mkState c e (upsert name (log ++ [s1; s2]) fs)).
Proof.
  intros H. unfold bind. rewrite (write_ok _ _ _ _ _ _ H).
  rewrite (write_ok _ _ _ _ _ _ (lookup_upsert _ _ _)).
  rewrite upsert_upsert, <- List.app_assoc. reflexivity.
Qed.

End Files.

Section Range.

Lemma in_range (n i : Z) : In i (range n) <-> 0 <= i < n.
Proof.
  unfold range. rewrite in_map_iff. split.
  - intros (k & <- & Hk). apply in_seq in Hk. lia.
  - intros H. exists (Z.to_nat i). split; [lia |]. apply in_seq. lia.
Qed.

Lemma range_length (n : Z) : List.length (range n) = Z.to_nat n.
Proof. unfold range. rewrite length_map, length_seq. reflexivity. Qed.

Lemma range_snoc (n : Z) : 0 <= n -> range (n + 1) = range n ++ [n].
Proof.
  intros Hn. unfold range.
  replace (Z.to_nat (n + 1)) with (S (Z.to_nat n)) by lia.
  rewrite seq_S, map_app. simpl. f_equal. f_equal. lia.
Qed.

Lemma range_cons (n : Z) :
  0 < n -> range n = 0 :: map Z.of_nat (seq 1 (Z.to_nat (n - 1))).
Proof.
  intros Hn. unfold range.
  replace (Z.to_nat n) with (S (Z.to_nat (n - 1))) by lia.
  reflexivity.
Qed.

Lemma nth_error_range (n i : Z) :
  0 <= i < n -> nth_error (range n) (Z.to_nat i) = Some i.
Proof.
  intros H. unfold range.
  rewrite nth_error_map, nth_error_seq.
  destruct (Nat.ltb_spec (Z.to_nat i) (Z.to_nat n)) as [_ | Hge]; [| lia].
  simpl. f_equal. lia.
Qed.

End Range.

Section Iteration.

Lemma insert_batch_cnt_value :
  insert_batch_cnt = Ok (Float (F (row_cnt / 20))).
Proof. reflexivity. Qed.

Lemma category_modulus :
  truediv (Int row_cnt) (Int 50) = Ok (Float (F (row_cnt / 50))).
Proof. reflexivity. Qed.

Lemma elevation_modulus :
  truediv (Int row_cnt) (Int 1000) = Ok (Float (F (row_cnt / 1000))).
Proof. reflexivity. Qed.

Lemma row_cnt_small : row_cnt < 2 ^ 53.
Proof. reflexivity. Qed.

Lemma mod_small (i n : Z) : 0 < n < 2 ^ 53 -> 0 <= i mod n < 2 ^ 53.
Proof. intros Hn. pose proof (Z.mod_pos_bound i n ltac:(lia)). lia. Qed.

Variables (c e : option value) (fs : filesystem).

Lemma at_batch_boundary_ok (i : Z) :
  0 <= i < row_cnt ->
  at_batch_boundary i (mkState c e fs) =
  Ok ((0 <? i) && (i mod (row_cnt / 20) =? 0), mkState c e fs).
Proof.
  intros Hi. pose proof row_cnt_small. unfold at_batch_boundary.
  destruct (0 <? i); [| reflexivity].
  unfold bind, lift. rewrite insert_batch_cnt_value.
  rewrite mod_int_float by (change (row_cnt / 20) with 10000; lia).
  rewrite eq_F_int by (apply mod_small; change (row_cnt / 20) with 10000; lia).
  reflexivity.
Qed.

Lemma write_separator_ok (fname table : string) (i : Z) (log : list string) :
  0 <= i < row_cnt -> lookup fname fs = Some log ->
  write_separator fname table i (mkState c e fs) =
  Ok (tt, mkState c e (upsert fname (log ++ separator table i) fs)).
Proof.
  intros Hi Hlog. unfold write_separator, separator.
  unfold bind at 1. rewrite at_batch_boundary_ok by assumption.
  destruct ((0 <? i) && (i mod (row_cnt / 20) =? 0)).
  - apply write_write. assumption.
  - destruct (0 <? i).
    + apply write_ok. assumption.
    + unfold ret. rewrite List.app_nil_r, upsert_same by assumption. reflexivity.
Qed.

Lemma update_category_ok (i : Z) :
  0 <= i < row_cnt ->
  update_category i (mkState c e fs) =
  Ok (tt, mkState (Some (Float (F (i mod (row_cnt / 50))))) e fs).
Proof.
  intros Hi. pose proof row_cnt_small. unfold update_category, bind, lift.
  rewrite category_modulus.
  rewrite mod_int_float by (change (row_cnt / 50) with 4000; lia).
  reflexivity.
Qed.

Lemma update_elevation_ok (i : Z) :
  0 <= i < row_cnt ->
  update_elevation i (mkState c e fs) =
  Ok (tt, mkState c (Some (Float (F (i mod (row_cnt / 1000))))) fs).
Proof.
  intros Hi. pose proof row_cnt_small. unfold update_elevation, bind, lift.
  rewrite elevation_modulus.
  rewrite mod_int_float by (change (row_cnt / 1000) with 200; lia).
  reflexivity.
Qed.

Lemma row_fstring_ok (i cz ez : Z) :
  0 <= cz < 2 ^ 53 -> 0 <= ez < 2 ^ 53 ->
  row_fstring (Int i) (Float (F cz)) (Float (F ez)) = Ok (row_text i cz ez).
Proof.
  intros Hc He. unfold row_fstring.
  rewrite !str_F by assumption. cbn [str rbind]. unfold row_text.
  rewrite !append_assoc. reflexivity.
Qed.

Lemma write_row_ok (fname : string) (i cz ez : Z) (log : list string) :
  0 <= cz < 2 ^ 53 -> 0 <= ez < 2 ^ 53 -> lookup fname fs = Some log ->
  write_row fname i (mkState (Some (Float (F cz))) (Some (Float (F ez))) fs) =
  Ok (tt, mkState (Some (Float (F cz))) (Some (Float (F ez)))
                  (upsert fname (log ++ [row_text i cz ez]) fs)).
Proof.
  intros Hc He Hlog. unfold write_row, bind, get_category, get_elevation, lift.
  cbn [category elevation]. rewrite row_fstring_ok by assumption.
  apply write_ok. assumption.
Qed.

End Iteration.

Section Loops.

Lemma animals_body_ok (i : Z) c e fs (log : list string) :
  0 <= i < row_cnt -> lookup "animals.sql" fs = Some log ->
  animals_body i (mkState c e fs) =
  Ok (tt, mkState (Some (Float (F (i mod (row_cnt / 50)))))
                  (Some (Float (F (i mod (row_cnt / 1000)))))
                  (upsert "animals.sql"
                          (log ++ separator "animals" i ++ [animals_row i]) fs)).
Proof.
  intros Hi Hlog. unfold animals_body.
  unfold bind at 1. rewrite (write_separator_ok _ _ _ _ _ _ _ Hi Hlog).
  unfold bind at 1. rewrite update_category_ok by assumption.
  unfold bind at 1. rewrite update_elevation_ok by assumption.
  rewrite (write_row_ok _ _ _ _ _ (log ++ separator "animals" i)).
  - rewrite upsert_upsert, <- List.app_assoc. reflexivity.
  - apply mod_small. change (row_cnt / 50) with 4000. lia.
  - apply mod_small. change (row_cnt / 1000) with 200. lia.
  - apply lookup_upsert.
Qed.

Lemma plants_body_ok (i cz ez : Z) fs (log : list string) :
  0 <= i < row_cnt -> 0 <= cz < 2 ^ 53 -> 0 <= ez < 2 ^ 53 ->
  lookup "plants.sql" fs = Some log ->
  plants_body i (mkState (Some (Float (F cz))) (Some (Float (F ez))) fs) =
  Ok (tt, mkState (Some (Float (F (i mod (row_cnt / 50)))))
                  (Some (Float (F (i mod (row_cnt / 1000)))))
                  (upsert "plants.sql"
                          (log ++ separator "plants" i ++ [row_text i cz ez]) fs)).
Proof.
  intros Hi Hc He Hlog. unfold plants_body.
  unfold bind at 1. rewrite (write_separator_ok _ _ _ _ _ _ _ Hi Hlog).
  unfold bind at 1.
  rewrite (write_row_ok _ _ _ _ _ (log ++ separator "plants" i))
    by (assumption || apply lookup_upsert).
  unfold bind at 1. rewrite update_category_ok by assumption.
  rewrite update_elevation_ok by assumption.
  rewrite upsert_upsert, <- List.app_assoc. reflexivity.
Qed.

(** The first loop over any indices in range. *)
Lemma animals_loop (l : list Z) :
  forall c e fs log,
    Forall (fun i => 0 <= i < row_cnt) l ->
    lookup "animals.sql" fs = Some log ->
    for_in l animals_body (mkState c e fs) =
    Ok (tt, mkState (fst (final_values l (c, e))) (snd (final_values l (c, e)))
                    (upsert "animals.sql"
                            (log ++ generated "animals" animals_row l) fs)).
Proof.
  induction l as [ | i l IH]; intros c e fs log Hl Hlog.
  - simpl. unfold ret. rewrite List.app_nil_r, upsert_same by assumption.
    reflexivity.
  - inversion Hl as [ | ? ? Hi Hl']; subst.
    cbn [for_in]. unfold bind.
    rewrite (animals_body_ok _ _ _ _ _ Hi Hlog).
    rewrite (IH _ _ _ _ Hl' (lookup_upsert _ _ _)).
    rewrite upsert_upsert. unfold generated. cbn [flat_map final_values fold_left].
    rewrite <- !List.app_assoc. reflexivity.
Qed.

(** The second loop, entered with category [cz] and elevation [ez]. *)
Lemma plants_loop (l : list Z) :
  forall cz ez fs log,
    Forall (fun i => 0 <= i < row_cnt) l ->
    0 <= cz < 2 ^ 53 -> 0 <= ez < 2 ^ 53 ->
    lookup "plants.sql" fs = Some log ->
    for_in l plants_body
           (mkState (Some (Float (F cz))) (Some (Float (F ez))) fs) =
    Ok (tt, mkState
              (fst (final_values l (Some (Float (F cz)), Some (Float (F ez)))))
              (snd (final_values l (Some (Float (F cz)), Some (Float (F ez)))))
              (upsert "plants.sql" (log ++ plants_chunks cz ez l) fs)).
Proof.
  induction l as [ | i l IH]; intros cz ez fs log Hl Hc He Hlog.
  - simpl. unfold ret. rewrite List.app_nil_r, upsert_same by assumption.
    reflexivity.
  - inversion Hl as [ | ? ? Hi Hl']; subst.
    cbn [for_in]. unfold bind.
    rewrite (plants_body_ok _ _ _ _ _ Hi Hc He Hlog).
    assert (Hc' : 0 <= i mod (row_cnt / 50) < 2 ^ 53)
      by (apply mod_small; change (row_cnt / 50) with 4000; lia).
    assert (He' : 0 <= i mod (row_cnt / 1000) < 2 ^ 53)
      by (apply mod_small; change (row_cnt / 1000) with 200; lia).
    rewrite (IH _ _ _ _ Hl' Hc' He' (lookup_upsert _ _ _)).
    rewrite upsert_upsert. cbn [plants_chunks final_values fold_left].
    rewrite <- !List.app_assoc. reflexivity.
Qed.

Lemma final_values_last (l : list Z) (i : Z) ce :
  final_values (l ++ [i]) ce =
  (Some (Float (F (i mod (row_cnt / 50)))),
   Some (Float (F (i mod (row_cnt / 1000))))).
Proof. unfold final_values. rewrite fold_left_app. reflexivity. Qed.

Lemma generated_ext (table : string) (f g : Z -> string) (l : list Z) :
  (forall i, In i l -> f i = g i) -> generated table f l = generated table g l.
Proof.
  intros H. unfold generated. induction l as [ | i l IH]; [reflexivity |].
  cbn [flat_map]. rewrite (H i (or_introl Logic.eq_refl)).
  rewrite IH by (intros j Hj; apply H; right; exact Hj). reflexivity.
Qed.

(** From the second index on, a row of the second loop carries the
    values of the index before it. *)
Lemma plants_chunks_seq (len a : nat) (cz ez : Z) :
  plants_chunks cz ez (map Z.of_nat (seq a len)) =
  generated "plants"
    (fun i => if i =? Z.of_nat a then row_text i cz ez
              else row_text i ((i - 1) mod (row_cnt / 50))
                              ((i - 1) mod (row_cnt / 1000)))
    (map Z.of_nat (seq a len)).
Proof.
  revert a cz ez. induction len as [ | len IH]; intros a cz ez; [reflexivity |].
  cbn [seq map plants_chunks]. unfold generated at 1. cbn [flat_map].
  fold (generated "plants"
          (fun i => if i =? Z.of_nat a then row_text i cz ez
                    else row_text i ((i - 1) mod (row_cnt / 50))
                                    ((i - 1) mod (row_cnt / 1000)))
          (map Z.of_nat (seq (S a) len))).
  rewrite Z.eqb_refl. f_equal.
  rewrite IH. apply generated_ext.
  intros i Hi. apply in_map_iff in Hi. destruct Hi as (k & <- & Hk).
  apply in_seq in Hk.
  destruct (Z.eqb_spec (Z.of_nat k) (Z.of_nat a)) as [Heq | _]; [lia |].
  destruct (Z.eqb_spec (Z.of_nat k) (Z.of_nat (S a))) as [Heq | _];
    [| reflexivity].
  rewrite Heq. replace (Z.of_nat (S a) - 1) with (Z.of_nat a) by lia.
  reflexivity.
Qed.

Lemma plants_chunks_range :
  plants_chunks ((row_cnt - 1) mod (row_cnt / 50))
                ((row_cnt - 1) mod (row_cnt / 1000)) (range row_cnt)
  = generated "plants" plants_row (range row_cnt).
Proof.
  unfold range at 1. rewrite plants_chunks_seq. fold (range row_cnt).
  apply generated_ext. intros i _. unfold plants_row.
  change (Z.of_nat 0) with 0.
  destruct (Z.eqb_spec i 0) as [-> | _]; reflexivity.
Qed.

End Loops.

Section Passes.

Lemma range_row_cnt_in : Forall (fun i => 0 <= i < row_cnt) (range row_cnt).
Proof. apply Forall_forall. intros i Hi. apply in_range. exact Hi. Qed.

Lemma final_values_row_cnt ce :
  final_values (range row_cnt) ce =
  (Some (Float (F ((row_cnt - 1) mod (row_cnt / 50)))),
   Some (Float (F ((row_cnt - 1) mod (row_cnt / 1000))))).
Proof.
  assert (H : range row_cnt = range (row_cnt - 1) ++ [row_cnt - 1]).
  { rewrite <- range_snoc by (unfold row_cnt; lia). reflexivity. }
  rewrite H. apply final_values_last.
Qed.

Lemma animals_pass_ok c e fs :
  animals_pass (mkState c e fs) =
  Ok (tt, mkState (Some (Float (F ((row_cnt - 1) mod (row_cnt / 50)))))
                  (Some (Float (F ((row_cnt - 1) mod (row_cnt / 1000)))))
                  (upsert "animals.sql"
                     (expected_log "animals" custom_animals animals_row) fs)).
Proof.
  unfold animals_pass.
  unfold bind at 1. unfold open_w. cbn [category elevation files].
  unfold bind at 1. rewrite (write_ok _ _ _ _ _ _ (lookup_upsert _ _ _)).
  unfold bind at 1. rewrite (write_ok _ _ _ _ _ _ (lookup_upsert _ _ _)).
  unfold bind at 1. rewrite (write_ok _ _ _ _ _ _ (lookup_upsert _ _ _)).
  unfold bind at 1.
  rewrite (animals_loop _ _ _ _ _ range_row_cnt_in (lookup_upsert _ _ _)).
  rewrite (write_ok _ _ _ _ _ _ (lookup_upsert _ _ _)).
  rewrite !upsert_upsert, final_values_row_cnt.
  unfold expected_log. cbn [fst snd app]. reflexivity.
Qed.

Lemma plants_pass_ok fs :
  plants_pass (mkState (Some (Float (F ((row_cnt - 1) mod (row_cnt / 50)))))
                       (Some (Float (F ((row_cnt - 1) mod (row_cnt / 1000)))))
                       fs) =
  Ok (tt, mkState (Some (Float (F ((row_cnt - 1) mod (row_cnt / 50)))))
                  (Some (Float (F ((row_cnt - 1) mod (row_cnt / 1000)))))
                  (upsert "plants.sql"
                     (expected_log "plants" custom_plants plants_row) fs)).
Proof.
  assert (Hc : 0 <= (row_cnt - 1) mod (row_cnt / 50) < 2 ^ 53)
    by (apply mod_small; change (row_cnt / 50) with 4000; lia).
  assert (He : 0 <= (row_cnt - 1) mod (row_cnt / 1000) < 2 ^ 53)
    by (apply mod_small; change (row_cnt / 1000) with 200; lia).
  unfold plants_pass.
  unfold bind at 1. unfold open_w. cbn [category elevation files].
  unfold bind at 1. rewrite (write_ok _ _ _ _ _ _ (lookup_upsert _ _ _)).
  unfold bind at 1. rewrite (write_ok _ _ _ _ _ _ (lookup_upsert _ _ _)).
  unfold bind at 1. rewrite (write_ok _ _ _ _ _ _ (lookup_upsert _ _ _)).
  unfold bind at 1.
  rewrite (plants_loop _ _ _ _ _ range_row_cnt_in Hc He (lookup_upsert _ _ _)).
  rewrite (write_ok _ _ _ _ _ _ (lookup_upsert _ _ _)).
  rewrite !upsert_upsert, final_values_row_cnt, plants_chunks_range.
  unfold expected_log. cbn [fst snd app]. reflexivity.
Qed.

(** The script runs to completion and leaves the two files. *)
Lemma main_runs :
  main initial =
  Ok (tt, mkState
            (Some (Float (F ((row_cnt - 1) mod (row_cnt / 50)))))
            (Some (Float (F ((row_cnt - 1) mod (row_cnt / 1000)))))
            [("animals.sql", expected_log "animals" custom_animals animals_row);
             ("plants.sql", expected_log "plants" custom_plants plants_row)]).
Proof.
  unfold main, initial.
  unfold bind at 1. unfold lift. rewrite insert_batch_cnt_value.
  unfold bind at 1. rewrite animals_pass_ok, plants_pass_ok.
  reflexivity.
Qed.

Lemma produces_animals :
  Produces "animals.sql" (expected_log "animals" custom_animals animals_row).
Proof. eexists. split; [apply main_runs | reflexivity]. Qed.

Lemma produces_plants :
  Produces "plants.sql" (expected_log "plants" custom_plants plants_row).
Proof. eexists. split; [apply main_runs | reflexivity]. Qed.


End Passes.

(* ===================================================================== *)
(** * Reading the expected logs                                           *)
(* ===================================================================== *)

Section Rows.

Lemma is_row_row_text (i c e : Z) : is_row (row_text i c e) = true.
Proof. reflexivity. Qed.

Lemma is_row_animals_row (i : Z) : is_row (animals_row i) = true.
Proof. reflexivity. Qed.

Lemma is_row_plants_row (i : Z) : is_row (plants_row i) = true.
Proof. unfold plants_row. destruct (i =? 0); reflexivity. Qed.

Lemma separator_not_rows (table : string) (i : Z) :
  Forall (fun chunk => is_row chunk = false) (separator table i).
Proof.
  unfold separator.
  destruct ((0 <? i) && (i mod (row_cnt / 20) =? 0)); [| destruct (0 <? i)];
    repeat constructor.
Qed.

Lemma segments_from_not_rows (seps pending rest : list string) :
  Forall (fun chunk => is_row chunk = false) seps ->
  segments_from pending (seps ++ rest) = segments_from (pending ++ seps) rest.
Proof.
  intros H. revert pending. induction H as [ | s seps Hs _ IH]; intros pending.
  - rewrite List.app_nil_r. reflexivity.
  - cbn [app segments_from]. rewrite Hs, IH, <- List.app_assoc. reflexivity.
Qed.

Variables (table custom : string) (rowf : Z -> string).
Hypothesis rowf_is_row : forall i, is_row (rowf i) = true.
Hypothesis custom_not_row : is_row custom = false.

Lemma segments_generated (l : list Z) :
  forall pending rest,
    segments_from pending (generated table rowf l ++ rest) =
    match l with
    | [] => segments_from pending rest
    | i :: l' =>
        (pending ++ separator table i, rowf i)
          :: map (fun j => (separator table j, rowf j)) l'
          ++ segments_from [] rest
    end.
Proof.
  induction l as [ | i l IH]; intros pending rest; [reflexivity |].
  unfold generated. cbn [flat_map].
  fold (generated table rowf l).
  rewrite <- !List.app_assoc.
  rewrite segments_from_not_rows by apply separator_not_rows.
  cbn [app segments_from]. rewrite rowf_is_row. f_equal.
  rewrite IH. destruct l as [ | j l']; [reflexivity |].
  cbn [map app]. reflexivity.
Qed.

(** Every generated row with what was written just before it. *)
Lemma segments_log (n : Z) :
  0 < n ->
  segments ([create_table table; custom; insert_header table]
              ++ generated table rowf (range n) ++ [(";" ++ nl)%string]) =
  map (fun i => (preceding table custom i, rowf i)) (range n).
Proof.
  intros Hn. unfold segments. cbn [app segments_from].
  replace (is_row (create_table table)) with false by reflexivity.
  replace (is_row (insert_header table)) with false by reflexivity.
  rewrite custom_not_row. cbn [app].
  rewrite segments_generated, range_cons by assumption.
  cbn [map segments_from]. replace (is_row (";" ++ nl)) with false by reflexivity.
  cbn [segments_from]. rewrite List.app_nil_r.
  change (separator table (Z.of_nat 0)) with (@nil string).
  rewrite List.app_nil_r.
  change (preceding table custom (Z.of_nat 0))
    with [create_table table; custom; insert_header table].
  f_equal.
  apply map_ext_in. intros j Hj.
  apply in_map_iff in Hj. destruct Hj as (k & <- & Hk). apply in_seq in Hk.
  unfold preceding.
  destruct (Z.eqb_spec (Z.of_nat k) 0); [lia | reflexivity].
Qed.

Lemma rows_log (n : Z) :
  0 < n ->
  rows ([create_table table; custom; insert_header table]
          ++ generated table rowf (range n) ++ [(";" ++ nl)%string]) =
  map rowf (range n).
Proof.
  intros Hn. unfold rows. rewrite segments_log, map_map by assumption.
  reflexivity.
Qed.

End Rows.

Section Statements.

Variable table : string.

Lemma feed_app (l1 l2 : list string) :
  forall st,
    feed table st (l1 ++ l2) =
    match feed table st l1 with
    | Some st' => feed table st' l2
    | None => None
    end.
Proof.
  induction l1 as [ | c l1 IH]; intros st; [reflexivity |].
  cbn [app feed]. destruct (read_chunk table st c); [apply IH | reflexivity].
Qed.

Lemma concat_snoc (sep r : string) (rs : list string) :
  String.concat sep (rs ++ [r]) =
  (match rs with
   | [] => ""
   | _ => String.concat sep rs ++ sep
   end ++ r)%string.
Proof.
  induction rs as [ | a rs IH]; [reflexivity |].
  destruct rs as [ | b rs].
  - cbn [app String.concat]. rewrite append_assoc. reflexivity.
  - change (String.concat sep ((a :: b :: rs) ++ [r]))
      with (a ++ sep ++ String.concat sep ((b :: rs) ++ [r]))%string.
    rewrite IH.
    change (String.concat sep (a :: b :: rs))
      with (a ++ sep ++ String.concat sep (b :: rs))%string.
    rewrite !append_assoc. reflexivity.
Qed.

Lemma render_inserts_snoc (done : list (list string)) (rs : list string) :
  render_inserts table (done ++ [rs]) =
  (render_inserts table done ++ render_insert table rs)%string.
Proof.
  unfold render_inserts. rewrite map_app, text_app. reflexivity.
Qed.

(** The text of an accepted log is the rendering of what was read. *)
Lemma feed_text (log : list string) :
  forall q done stmts,
    reading_wf q ->
    feed table (q, done) log = Some (Outside, stmts) ->
    (render_inserts table done ++ pending_text table q ++ text log)%string
    = render_inserts table stmts.
Proof.
  induction log as [ | c log IH]; intros q done stmts Hwf Hfeed.
  - cbn [feed] in Hfeed. injection Hfeed as -> ->.
    cbn [pending_text]. unfold text. simpl. apply append_nil_r.
  - cbn [feed] in Hfeed.
    destruct (read_chunk table (q, done) c) as [[q' done'] | ] eqn:Hstep;
      [| discriminate].
    rewrite text_cons.
    destruct q as [ | rs | rs]; cbn [read_chunk] in Hstep.
    + destruct (String.eqb_spec c (insert_header table)) as [-> | ];
        [| discriminate].
      injection Hstep as <- <-.
      rewrite <- (IH (ExpectRow []) _ _ I Hfeed).
      cbn [pending_text append]. rewrite append_nil_r. reflexivity.
    + destruct (is_row c); [| discriminate].
      injection Hstep as <- <-.
      assert (Hwf' : reading_wf (AfterRow (rs ++ [c])))
        by (cbn; destruct rs; discriminate).
      rewrite <- (IH (AfterRow (rs ++ [c])) _ _ Hwf' Hfeed).
      cbn [pending_text]. rewrite concat_snoc, !append_assoc. reflexivity.
    + destruct (String.eqb_spec c ("," ++ nl)) as [-> | ].
      * injection Hstep as <- <-.
        rewrite <- (IH (ExpectRow rs) _ _ I Hfeed).
        cbn [pending_text reading_wf] in *.
        destruct rs as [ | r rs]; [congruence |].
        rewrite !append_assoc. reflexivity.
      * destruct (String.eqb_spec c (";" ++ nl)) as [-> | ]; [| discriminate].
        injection Hstep as <- <-.
        rewrite <- (IH Outside _ _ I Hfeed).
        rewrite render_inserts_snoc. unfold render_insert.
        cbn [pending_text append]. rewrite !append_assoc. reflexivity.
Qed.

Lemma read_inserts_text (log : list string) (stmts : list (list string)) :
  read_inserts table log = Some stmts ->
  text log = render_inserts table stmts.
Proof.
  unfold read_inserts. intros H.
  destruct (feed table (Outside, []) log) as [[[ | rs | rs] done] | ] eqn:Hfeed;
    try discriminate.
  injection H as ->.
  apply (feed_text log Outside [] stmts I Hfeed).
Qed.

End Statements.

Section Batches.

Variables (table : string) (rowf : Z -> string).
Hypothesis rowf_is_row : forall i, is_row (rowf i) = true.

Lemma semicolon_is_not_comma : String.eqb (";" ++ nl) ("," ++ nl) = false.
Proof. reflexivity. Qed.

(** Runs the reader over the chunks at the head of the log. *)
Ltac read_chunks :=
  repeat (cbn [feed read_chunk];
          rewrite ?semicolon_is_not_comma, ?String.eqb_refl, ?rowf_is_row).

(** Reading what one iteration after the first writes. *)
Lemma feed_iteration (i : Z) (rs : list string) (done : list (list string)) :
  0 < i ->
  feed table (AfterRow rs, done) (separator table i ++ [rowf i]) =
  Some (if i mod (row_cnt / 20) =? 0
        then (AfterRow [rowf i], done ++ [rs])
        else (AfterRow (rs ++ [rowf i]), done)).
Proof.
  intros Hi. unfold separator.
  destruct (Z.ltb_spec 0 i) as [_ | ]; [| lia]. cbn [andb].
  destruct (i mod (row_cnt / 20) =? 0); cbn [app]; read_chunks; reflexivity.
Qed.

(** The reader after the header and the first [n] iterations: [done] holds
    the full batches closed so far and [rs] the rows of the open one. *)
Lemma feed_generated (n : nat) :
  (1 <= n)%nat ->
  exists rs done,
    feed table (Outside, [])
         (insert_header table :: generated table rowf (range (Z.of_nat n)))
    = Some (AfterRow rs, done)
    /\ Z.of_nat n = (row_cnt / 20) * Z.of_nat (List.length done)
                    + Z.of_nat (List.length rs)
    /\ 1 <= Z.of_nat (List.length rs) <= row_cnt / 20
    /\ Forall (fun b => Z.of_nat (List.length b) = row_cnt / 20) done
    /\ List.concat done ++ rs = map rowf (range (Z.of_nat n)).
Proof.
  induction n as [ | n IH]; [lia |]. intros _.
  destruct n as [ | n].
  - exists [rowf 0], [].
    change (generated table rowf (range (Z.of_nat 1))) with [rowf 0].
    read_chunks.
    repeat split; try reflexivity; try constructor. discriminate.
  - destruct (IH ltac:(lia)) as (rs & done & Hfeed & Hn & Hrs & Hdone & Hrows).
    set (m := S n) in *.
    replace (Z.of_nat (S m)) with (Z.of_nat m + 1) by lia.
    rewrite range_snoc by lia.
    unfold generated in *. rewrite flat_map_app. cbn [flat_map].
    rewrite List.app_nil_r, app_comm_cons, feed_app, Hfeed.
    rewrite feed_iteration by lia.
    change (row_cnt / 20) with 10000 in *.
    destruct (Z.eqb_spec (Z.of_nat m mod 10000) 0) as [Hmod | Hmod].
    + assert (Hfull : Z.of_nat (List.length rs) = 10000).
      { rewrite Hn in Hmod.
        rewrite Z.add_comm, Z.mul_comm, Z.mod_add in Hmod by lia.
        destruct (Z.eq_dec (Z.of_nat (List.length rs)) 10000); [assumption |].
        rewrite Z.mod_small in Hmod by lia. lia. }
      exists [rowf (Z.of_nat m)], (done ++ [rs]).
      split; [reflexivity |].
      rewrite length_app, Nat2Z.inj_add. cbn [List.length].
      repeat split; try lia.
      * apply Forall_app. split; [assumption |]. repeat constructor. assumption.
      * rewrite List.concat_app, map_app. cbn [List.concat map].
        rewrite List.app_nil_r, Hrows. reflexivity.
    + assert (Hroom : Z.of_nat (List.length rs) < 10000).
      { destruct (Z.eq_dec (Z.of_nat (List.length rs)) 10000) as [Heq | ];
          [exfalso | lia].
        apply Hmod. rewrite Hn, Heq.
        rewrite Z.add_comm, Z.mul_comm, Z.mod_add by lia. reflexivity. }
      exists (rs ++ [rowf (Z.of_nat m)]), done.
      split; [reflexivity |].
      rewrite length_app, Nat2Z.inj_add. cbn [List.length].
      repeat split; try lia; try assumption.
      rewrite List.app_assoc, map_app, Hrows. reflexivity.
Qed.

(** The generated part of a file reads as 20 statements of 10000 rows. *)
Lemma read_inserts_generated :
  exists stmts,
    read_inserts table
      (insert_header table
         :: generated table rowf (range row_cnt) ++ [(";" ++ nl)%string])
    = Some stmts
    /\ Z.of_nat (List.length stmts) = 20
    /\ Forall (fun b => Z.of_nat (List.length b) = row_cnt / 20) stmts
    /\ List.concat stmts = map rowf (range row_cnt).
Proof.
  destruct (feed_generated (Z.to_nat row_cnt))
    as (rs & done & Hfeed & Hn & Hrs & Hdone & Hrows).
  { unfold row_cnt. lia. }
  rewrite Z2Nat.id in * by (unfold row_cnt; lia).
  exists (done ++ [rs]).
  unfold read_inserts. rewrite app_comm_cons, feed_app, Hfeed.
  read_chunks.
  change (row_cnt / 20) with 10000 in *. change row_cnt with 200000 in Hn.
  split; [reflexivity |].
  rewrite length_app, Nat2Z.inj_add. cbn [List.length].
  repeat split; try lia.
  - apply Forall_app. split; [assumption |]. repeat constructor. lia.
  - rewrite List.concat_app. cbn [List.concat]. rewrite List.app_nil_r. assumption.
Qed.

End Batches.

Section Fields.

Lemma split_no_sep (sep : ascii) (a : string) :
  has_char sep a = false -> split sep a = [a].
Proof.
  induction a as [ | x a IH]; [reflexivity |]. cbn [has_char split].
  intros H. apply orb_false_elim in H. destruct H as [Hx Ha].
  rewrite Hx, (IH Ha). reflexivity.
Qed.

Lemma split_app (sep : ascii) (a b : string) :
  has_char sep a = false ->
  split sep (a ++ String sep b) = a :: split sep b.
Proof.
  induction a as [ | x a IH]; cbn [has_char split append].
  - intros _. rewrite Ascii.eqb_refl. reflexivity.
  - intros H. apply orb_false_elim in H. destruct H as [Hx Ha].
    rewrite Hx, (IH Ha). reflexivity.
Qed.

Lemma strip_last_app (c : ascii) (a b r : string) :
  strip_last c b = Some r -> strip_last c (a ++ b) = Some (a ++ r)%string.
Proof.
  intros Hb. induction a as [ | x a IH]; [exact Hb |].
  cbn [append strip_last]. rewrite IH.
  destruct (a ++ b)%string eqn:E; [| reflexivity].
  destruct a; [| discriminate]. cbn in E. subst b. discriminate.
Qed.

Lemma strip_last_cons (c x : ascii) (b r : string) :
  strip_last c b = Some r -> strip_last c (String x b) = Some (String x r).
Proof. apply (strip_last_app c (String x "")). Qed.

(** A row is read back as the fields it was made of. *)
Lemma fields_of_row (f1 f2 f3 f4 : string) :
  has_char "," f1 = false -> has_char "," f2 = false ->
  has_char "," f3 = false -> has_char "," f4 = false ->
  row_fields ("  (" ++ f1 ++ "," ++ f2 ++ "," ++ f3 ++ "," ++ f4 ++ ")")
  = Some [f1; f2; f3; f4].
Proof.
  intros H1 H2 H3 H4. unfold row_fields. cbn [append].
  rewrite (strip_last_app _ f1 _
             (String "," (f2 ++ String "," (f3 ++ String "," f4)))).
  - cbn [option_map]. rewrite !split_app, split_no_sep by assumption.
    reflexivity.
  - apply strip_last_cons, strip_last_app, strip_last_cons, strip_last_app,
      strip_last_cons.
    rewrite <- (append_nil_r f4) at 2. apply strip_last_app. reflexivity.
Qed.

Variables i c e : Z.
Hypotheses (Hi : 0 <= i) (Hc : 0 <= c) (He : 0 <= e).

Lemma row_text_as_fields :
  row_text i c e =
  ("  (" ++ str_int i ++ "," ++ ("'name" ++ str_int i ++ "'") ++ ","
         ++ (str_int c ++ ".0") ++ "," ++ (str_int e ++ ".0") ++ ")")%string.
Proof.
  unfold row_text.
  repeat first [rewrite !append_assoc | progress cbn [append]].
  reflexivity.
Qed.

Lemma row_text_fields :
  row_fields (row_text i c e) =
  Some [str_int i; ("'name" ++ str_int i ++ "'")%string;
        (str_int c ++ ".0")%string; (str_int e ++ ".0")%string].
Proof.
  rewrite row_text_as_fields. apply fields_of_row;
    rewrite ?has_char_append, ?str_int_no_char by (assumption || reflexivity);
    reflexivity.
Qed.

Lemma row_text_id : row_id (row_text i c e) = Some i.
Proof.
  unfold row_text, row_id. cbn [append].
  rewrite split_app by (apply str_int_no_char; [reflexivity | assumption]).
  cbn [hd]. apply read_str_int. assumption.
Qed.

Lemma row_text_no_semicolon : has_char ";" (row_text i c e) = false.
Proof.
  unfold row_text.
  rewrite !has_char_append, !str_int_no_char by (assumption || reflexivity).
  reflexivity.
Qed.

End Fields.

(* ===================================================================== *)
(** * The two files                                                       *)
(* ===================================================================== *)

Section Outputs.

Lemma row_cnt_pos : 0 < row_cnt.
Proof. reflexivity. Qed.

Lemma rows_animals :
  rows (expected_log "animals" custom_animals animals_row)
  = map animals_row (range row_cnt).
Proof.
  apply rows_log;
    [exact is_row_animals_row | reflexivity | exact row_cnt_pos].
Qed.

Lemma rows_plants :
  rows (expected_log "plants" custom_plants plants_row)
  = map plants_row (range row_cnt).
Proof.
  apply rows_log;
    [exact is_row_plants_row | reflexivity | exact row_cnt_pos].
Qed.

Lemma row_animals (i : Z) :
  0 <= i < row_cnt -> Row "animals.sql" i (animals_row i).
Proof.
  intros Hi. exists (expected_log "animals" custom_animals animals_row).
  split; [exact produces_animals |].
  rewrite rows_animals, nth_error_map, nth_error_range by assumption.
  reflexivity.
Qed.

Lemma row_plants (i : Z) :
  0 <= i < row_cnt -> Row "plants.sql" i (plants_row i).
Proof.
  intros Hi. exists (expected_log "plants" custom_plants plants_row).
  split; [exact produces_plants |].
  rewrite rows_plants, nth_error_map, nth_error_range by assumption.
  reflexivity.
Qed.

Lemma segment_animals (i : Z) :
  0 <= i < row_cnt ->
  Segment "animals.sql" i (preceding "animals" custom_animals i) (animals_row i).
Proof.
  intros Hi. exists (expected_log "animals" custom_animals animals_row).
  split; [exact produces_animals |]. unfold expected_log.
  rewrite segments_log, nth_error_map, nth_error_range;
    [reflexivity | assumption | exact is_row_animals_row | reflexivity
    | exact row_cnt_pos].
Qed.

Lemma segment_plants (i : Z) :
  0 <= i < row_cnt ->
  Segment "plants.sql" i (preceding "plants" custom_plants i) (plants_row i).
Proof.
  intros Hi. exists (expected_log "plants" custom_plants plants_row).
  split; [exact produces_plants |]. unfold expected_log.
  rewrite segments_log, nth_error_map, nth_error_range;
    [reflexivity | assumption | exact is_row_plants_row | reflexivity
    | exact row_cnt_pos].
Qed.

Lemma plants_row_lag (i : Z) :
  1 <= i ->
  plants_row i
  = row_text i ((i - 1) mod (row_cnt / 50)) ((i - 1) mod (row_cnt / 1000)).
Proof.
  intros Hi. unfold plants_row.
  destruct (Z.eqb_spec i 0); [lia | reflexivity].
Qed.

End Outputs.

Section Literals.

Lemma all_chars_app (P : ascii -> bool) (a b : string) :
  all_chars P (a ++ b) = all_chars P a && all_chars P b.
Proof.
  induction a as [ | x a IH]; [reflexivity |].
  cbn [append all_chars]. rewrite IH, andb_assoc. reflexivity.
Qed.

(** Text ending in [.0] is not an integer literal. *)
Lemma decimal_point_not_int (s : string) : is_int_literal (s ++ ".0") = false.
Proof.
  destruct s as [ | a s]; [reflexivity |].
  cbn [append is_int_literal].
  destruct (Ascii.eqb a "-").
  - destruct (s ++ ".0")%string eqn:E; [reflexivity |].
    rewrite <- E, all_chars_app. apply andb_false_r.
  - change (String a (s ++ ".0")) with (String a s ++ ".0")%string.
    rewrite all_chars_app. apply andb_false_r.
Qed.

(** The digits of a natural number are an integer literal. *)
Lemma str_int_is_int_literal (z : Z) :
  0 <= z -> is_int_literal (str_int z) = true.
Proof.
  intros Hz. pose proof (str_int_digits z Hz) as Hd.
  destruct (str_int_nonneg z Hz) as (d & Hnil & _ & Hs).
  destruct (str_int z) as [ | a s] eqn:E.
  - destruct d; simpl in Hs; congruence.
  - cbn [is_int_literal].
    destruct (Ascii.eqb_spec a "-") as [-> | _]; [discriminate | exact Hd].
Qed.

Lemma plants_row_text (i : Z) :
  0 <= i < row_cnt ->
  exists c e,
    0 <= c < 2 ^ 53 /\ 0 <= e < 2 ^ 53 /\ plants_row i = row_text i c e.
Proof.
  intros Hi. unfold plants_row. destruct (Z.eqb_spec i 0) as [-> | Hne].
  - exists ((row_cnt - 1) mod (row_cnt / 50)),
           ((row_cnt - 1) mod (row_cnt / 1000)).
    repeat split; try (apply mod_small; reflexivity || (split; reflexivity)).
  - exists ((i - 1) mod (row_cnt / 50)), ((i - 1) mod (row_cnt / 1000)).
    repeat split; apply mod_small; split; reflexivity.
Qed.

End Literals.

Section Semicolons.

Lemma count_char_append (ch : ascii) (a b : string) :
  count_char ch (a ++ b) = (count_char ch a + count_char ch b)%nat.
Proof.
  induction a as [ | x a IH]; [reflexivity |].
  cbn [append count_char]. rewrite IH. lia.
Qed.

Lemma count_char_absent (ch : ascii) (s : string) :
  has_char ch s = false -> count_char ch s = O.
Proof.
  induction s as [ | x s IH]; [reflexivity |]. cbn [has_char count_char].
  intros H. apply orb_false_elim in H. destruct H as [Hx Hs].
  rewrite Hx, (IH Hs). reflexivity.
Qed.

Lemma count_char_concat (ch : ascii) (sep : string) (l : list string) :
  count_char ch sep = O ->
  Forall (fun r => has_char ch r = false) l ->
  count_char ch (String.concat sep l) = O.
Proof.
  intros Hsep H. induction H as [ | r l Hr Hl IH]; [reflexivity |].
  destruct l as [ | r' l].
  - apply count_char_absent. exact Hr.
  - change (String.concat sep (r :: r' :: l))
      with (r ++ sep ++ String.concat sep (r' :: l))%string.
    rewrite !count_char_append, IH, Hsep, (count_char_absent _ _ Hr).
    reflexivity.
Qed.

Lemma ends_with_app (suffix a : string) : ends_with suffix (a ++ suffix) = true.
Proof.
  induction a as [ | x a IH].
  - destruct suffix; cbn [append ends_with]; rewrite String.eqb_refl;
      reflexivity.
  - cbn [append ends_with]. rewrite IH. apply orb_true_r.
Qed.

Variable table : string.
Hypothesis header_clean : count_char ";" (insert_header table) = O.

(** A statement over rows free of semicolons is closed exactly once. *)
Lemma render_insert_closed (rs : list string) :
  Forall (fun r => has_char ";" r = false) rs ->
  closed_once (render_insert table rs) = true.
Proof.
  intros Hrs. unfold closed_once, render_insert.
  rewrite !count_char_append, header_clean, count_char_concat
    by (assumption || reflexivity).
  cbn [Nat.add count_char Nat.eqb andb].
  change (Ascii.eqb ";" ";") with true. cbn.
  rewrite <- !append_assoc. rewrite ends_with_app. apply orb_true_r.
Qed.

Lemma render_inserts_count (stmts : list (list string)) :
  Forall (fun rs => closed_once (render_insert table rs) = true) stmts ->
  count_char ";" (render_inserts table stmts) = List.length stmts.
Proof.
  intros H. unfold render_inserts.
  induction H as [ | rs stmts Hrs _ IH]; [reflexivity |].
  cbn [map List.length]. rewrite text_cons, count_char_append, IH.
  unfold closed_once in Hrs. apply andb_prop in Hrs. destruct Hrs as [Hc _].
  apply Nat.eqb_eq in Hc. rewrite Hc. reflexivity.
Qed.

End Semicolons.

Section Layout.

Variables (table custom : string) (rowf : Z -> string).
Hypothesis rowf_is_row : forall i, is_row (rowf i) = true.
Hypothesis rowf_clean :
  forall i, 0 <= i < row_cnt -> has_char ";" (rowf i) = false.
Hypothesis header_clean : count_char ";" (insert_header table) = O.

(** The layout of a file, as the claims about statements need it. *)
Lemma layout :
  exists stmts,
    read_inserts table (skipn 2 (expected_log table custom rowf)) = Some stmts
    /\ text (expected_log table custom rowf)
       = (create_table table ++ custom ++ render_inserts table stmts)%string
    /\ Z.of_nat (List.length stmts) = 20
    /\ Forall (fun rs => Z.of_nat (List.length rs) = row_cnt / 20) stmts
    /\ List.concat stmts = map rowf (range row_cnt)
    /\ Forall (fun rs => rs <> []
                         /\ closed_once (render_insert table rs) = true) stmts.
Proof.
  destruct (read_inserts_generated table rowf rowf_is_row)
    as (stmts & Hread & Hlen & Hsize & Hrows).
  exists stmts. unfold expected_log. cbn [app skipn].
  split; [exact Hread |].
  split.
  { rewrite (text_cons (create_table table)), (text_cons custom).
    rewrite (read_inserts_text _ _ _ Hread). reflexivity. }
  split; [exact Hlen |]. split; [exact Hsize |]. split; [exact Hrows |].
  apply Forall_forall. intros rs Hin. split.
  - pose proof (proj1 (Forall_forall _ _) Hsize rs Hin) as Hl.
    intros ->. discriminate.
  - apply render_insert_closed; [exact header_clean |].
    apply Forall_forall. intros r Hr.
    assert (Hc : In r (List.concat stmts)) by (apply in_concat; eauto).
    rewrite Hrows in Hc. apply in_map_iff in Hc.
    destruct Hc as (i & <- & Hi). apply rowf_clean, in_range. exact Hi.
Qed.

End Layout.

Section Ids.

Lemma NoDup_map_injective {A B} (f : A -> B) (l : list A) :
  (forall x y, f x = f y -> x = y) -> NoDup l -> NoDup (map f l).
Proof.
  intros Hinj H. induction H as [ | a l Ha _ IH]; [constructor |].
  cbn [map]. constructor; [| exact IH].
  intros Hin. apply in_map_iff in Hin. destruct Hin as (b & Hb & Hin).
  apply Hinj in Hb. subst b. exact (Ha Hin).
Qed.

Lemma range_NoDup (n : Z) : NoDup (range n).
Proof.
  unfold range. apply NoDup_map_injective; [| apply seq_NoDup].
  intros x y. apply Nat2Z.inj.
Qed.

(** Three negative ids followed by the ids of [range n] never repeat. *)
Lemma ids_NoDup (n : Z) :
  NoDup ([Some (-1); Some (-2); Some (-3)] ++ map Some (range n)).
Proof.
  apply NoDup_app.
  - repeat constructor; cbn; intuition discriminate.
  - apply NoDup_map_injective; [| apply range_NoDup]. congruence.
  - intros a Ha Hin. apply in_map_iff in Hin. destruct Hin as (i & <- & Hi).
    apply in_range in Hi. cbn in Ha.
    destruct Ha as [H | [H | [H | []]]]; injection H as H; lia.
Qed.

Lemma animals_ids :
  map row_id (map animals_row (range row_cnt)) = map Some (range row_cnt).
Proof.
  rewrite map_map. apply map_ext_in. intros i Hi. apply in_range in Hi.
  apply row_text_id. lia.
Qed.

Lemma plants_ids :
  map row_id (map plants_row (range row_cnt)) = map Some (range row_cnt).
Proof.
  rewrite map_map. apply map_ext_in. intros i Hi. apply in_range in Hi.
  destruct (plants_row_text i Hi) as (c & e & _ & _ & ->).
  apply row_text_id. lia.
Qed.

Lemma animals_row_clean (i : Z) :
  0 <= i < row_cnt -> has_char ";" (animals_row i) = false.
Proof.
  intros Hi. apply row_text_no_semicolon; try lia;
    apply Z.mod_pos_bound; reflexivity.
Qed.

Lemma plants_row_clean (i : Z) :
  0 <= i < row_cnt -> has_char ";" (plants_row i) = false.
Proof.
  intros Hi. destruct (plants_row_text i Hi) as (c & e & Hc & He & ->).
  apply row_text_no_semicolon; lia.
Qed.

End Ids.

(* ===================================================================== *)
(** * The claims                                                          *)
(* ===================================================================== *)

(** C1, at the input where the script departs from it.  The claim asks
    that row [i] of both files carries category [i mod (row_cnt/50)] and
    elevation [i mod (row_cnt/1000)].  Row 1 of [animals.sql] does, with
    [1.0] and [1.0]; row 1 of [plants.sql] is written with [0.0] and
    [0.0], the values computed for row 0. *)
Theorem C1_plants_row_1_has_the_values_of_row_0 :
  Row "animals.sql" 1 "  (1,'name1',1.0,1.0)"
  /\ Row "plants.sql" 1 "  (1,'name1',0.0,0.0)"
  /\ row_fields "  (1,'name1',0.0,0.0)" = Some ["1"; "'name1'"; "0.0"; "0.0"]
  /\ 1 mod (row_cnt / 50) = 1
  /\ 1 mod (row_cnt / 1000) = 1.
Proof.
  repeat split.
  - change "  (1,'name1',1.0,1.0)" with (animals_row 1).
    apply row_animals. unfold row_cnt. lia.
  - change "  (1,'name1',0.0,0.0)" with (plants_row 1).
    apply row_plants. unfold row_cnt. lia.
Qed.

(** C2: for every index [i >= 1], row [i] of [plants.sql] is the f-string
    of [i] with the values Python computes for [(i-1) % (row_cnt / 50)] and
    [(i-1) % (row_cnt / 1000)]; these denote the integers
    [(i-1) mod (row_cnt/50)] and [(i-1) mod (row_cnt/1000)], and the row's
    category and elevation fields are their digits followed by [.0]. *)
Theorem C2_plants_rows_lag_one_iteration (i : Z) :
  1 <= i < row_cnt ->
  exists c e row,
    rbind (truediv (Int row_cnt) (Int 50)) (mod_ (Int (i - 1))) = Ok c
    /\ rbind (truediv (Int row_cnt) (Int 1000)) (mod_ (Int (i - 1))) = Ok e
    /\ Py.eq c (Int ((i - 1) mod (row_cnt / 50))) = true
    /\ Py.eq e (Int ((i - 1) mod (row_cnt / 1000))) = true
    /\ row_fstring (Int i) c e = Ok row
    /\ Row "plants.sql" i row
    /\ row_fields row =
       Some [str_int i; ("'name" ++ str_int i ++ "'")%string;
             (str_int ((i - 1) mod (row_cnt / 50)) ++ ".0")%string;
             (str_int ((i - 1) mod (row_cnt / 1000)) ++ ".0")%string].
Proof.
  intros Hi. pose proof row_cnt_small as Hsmall.
  assert (Hc : 0 <= (i - 1) mod (row_cnt / 50) < 2 ^ 53)
    by (apply mod_small; change (row_cnt / 50) with 4000; lia).
  assert (He : 0 <= (i - 1) mod (row_cnt / 1000) < 2 ^ 53)
    by (apply mod_small; change (row_cnt / 1000) with 200; lia).
  exists (Float (F ((i - 1) mod (row_cnt / 50)))),
         (Float (F ((i - 1) mod (row_cnt / 1000)))),
         (row_text i ((i - 1) mod (row_cnt / 50)) ((i - 1) mod (row_cnt / 1000))).
  repeat split.
  - rewrite category_modulus. cbn [rbind].
    apply mod_int_float; [| change (row_cnt / 50) with 4000]; lia.
  - rewrite elevation_modulus. cbn [rbind].
    apply mod_int_float; [| change (row_cnt / 1000) with 200]; lia.
  - rewrite eq_F_int by assumption. apply Z.eqb_refl.
  - rewrite eq_F_int by assumption. apply Z.eqb_refl.
  - apply row_fstring_ok; assumption.
  - rewrite <- plants_row_lag by lia. apply row_plants. lia.
  - apply row_text_fields; lia.
Qed.

(** C2 at [i = 1], the first row that lags. *)
Lemma C2_witness :
  1 <= 1 < row_cnt
  /\ exists c e row,
       rbind (truediv (Int row_cnt) (Int 50)) (mod_ (Int (1 - 1))) = Ok c
       /\ rbind (truediv (Int row_cnt) (Int 1000)) (mod_ (Int (1 - 1))) = Ok e
       /\ Py.eq c (Int ((1 - 1) mod (row_cnt / 50))) = true
       /\ Py.eq e (Int ((1 - 1) mod (row_cnt / 1000))) = true
       /\ row_fstring (Int 1) c e = Ok row
       /\ Row "plants.sql" 1 row
       /\ row_fields row =
          Some [str_int 1; ("'name" ++ str_int 1 ++ "'")%string;
                (str_int ((1 - 1) mod (row_cnt / 50)) ++ ".0")%string;
                (str_int ((1 - 1) mod (row_cnt / 1000)) ++ ".0")%string].
Proof.
  split; [unfold row_cnt; lia |].
  apply (C2_plants_rows_lag_one_iteration 1). unfold row_cnt. lia.
Defined.

(** C3: the batch size and both moduli are floats, so for every generated
    row of either file the category and elevation written are floats; their
    fields are digits followed by [.0] and are not integer literals, where
    the digits alone would be.  The first row of [animals.sql] is
    [  (0,'name0',0.0,0.0)]. *)
Theorem C3_category_and_elevation_are_written_as_floats (i : Z) :
  0 <= i < row_cnt ->
  insert_batch_cnt = Ok (Float (F (row_cnt / 20)))
  /\ truediv (Int row_cnt) (Int 50) = Ok (Float (F (row_cnt / 50)))
  /\ truediv (Int row_cnt) (Int 1000) = Ok (Float (F (row_cnt / 1000)))
  /\ (forall name,
        name = "animals.sql" \/ name = "plants.sql" ->
        exists row fc fe c e,
          Row name i row
          /\ row_fstring (Int i) (Float fc) (Float fe) = Ok row
          /\ row_fields row =
             Some [str_int i; ("'name" ++ str_int i ++ "'")%string;
                   (str_int c ++ ".0")%string; (str_int e ++ ".0")%string]
          /\ is_int_literal (str_int c ++ ".0") = false
          /\ is_int_literal (str_int e ++ ".0") = false
          /\ is_int_literal (str_int c) = true
          /\ is_int_literal (str_int e) = true)
  /\ Row "animals.sql" 0 "  (0,'name0',0.0,0.0)".
Proof.
  intros Hi.
  split; [exact insert_batch_cnt_value |].
  split; [exact category_modulus |].
  split; [exact elevation_modulus |].
  split.
  - intros name [-> | ->].
    + assert (Hc : 0 <= i mod (row_cnt / 50) < 2 ^ 53)
        by (apply mod_small; split; reflexivity).
      assert (He : 0 <= i mod (row_cnt / 1000) < 2 ^ 53)
        by (apply mod_small; split; reflexivity).
      exists (animals_row i), (F (i mod (row_cnt / 50))),
             (F (i mod (row_cnt / 1000))),
             (i mod (row_cnt / 50)), (i mod (row_cnt / 1000)).
      split; [apply row_animals; assumption |].
      split; [apply row_fstring_ok; assumption |].
      split; [apply row_text_fields; lia |].
      repeat split;
        apply decimal_point_not_int || (apply str_int_is_int_literal; lia).
    + destruct (plants_row_text i Hi) as (c & e & Hc & He & Hrow).
      exists (plants_row i), (F c), (F e), c, e.
      split; [apply row_plants; assumption |].
      rewrite Hrow.
      split; [apply row_fstring_ok; assumption |].
      split; [apply row_text_fields; lia |].
      repeat split;
        apply decimal_point_not_int || (apply str_int_is_int_literal; lia).
  - change "  (0,'name0',0.0,0.0)" with (animals_row 0).
    apply row_animals. split; reflexivity || discriminate.
Qed.

(** C3 at [i = 0], in both files. *)
Lemma C3_witness :
  0 <= 0 < row_cnt
  /\ (forall name,
        name = "animals.sql" \/ name = "plants.sql" ->
        exists row fc fe c e,
          Row name 0 row
          /\ row_fstring (Int 0) (Float fc) (Float fe) = Ok row
          /\ row_fields row =
             Some [str_int 0; ("'name" ++ str_int 0 ++ "'")%string;
                   (str_int c ++ ".0")%string; (str_int e ++ ".0")%string]
          /\ is_int_literal (str_int c ++ ".0") = false
          /\ is_int_literal (str_int e ++ ".0") = false
          /\ is_int_literal (str_int c) = true
          /\ is_int_literal (str_int e) = true).
Proof.
  assert (H0 : 0 <= 0 < row_cnt) by (unfold row_cnt; lia).
  split; [exact H0 |].
  exact (proj1 (proj2 (proj2 (proj2
    (C3_category_and_elevation_are_written_as_floats 0 H0))))).
Defined.

(** C4: in both files, a generated row whose index is a nonzero multiple
    of the batch size [row_cnt/20] is preceded by a semicolon chunk and a
    new [insert into <table> values] header; every other row with index
    above 0 is preceded by a comma chunk.  In [animals.sql], row 9999 comes
    after a comma, and row 10000 after the semicolon that closes row 9999's
    statement and a new header. *)
Theorem C4_rows_at_batch_boundaries_open_a_statement (i : Z) :
  0 < i < row_cnt ->
  Segment "animals.sql" i
          (if i mod (row_cnt / 20) =? 0
           then [(";" ++ nl)%string; ("insert into animals values" ++ nl)%string]
           else [("," ++ nl)%string])
          (animals_row i)
  /\ Segment "plants.sql" i
             (if i mod (row_cnt / 20) =? 0
              then [(";" ++ nl)%string; ("insert into plants values" ++ nl)%string]
              else [("," ++ nl)%string])
             (plants_row i)
  /\ row_id (animals_row i) = Some i
  /\ row_id (plants_row i) = Some i
  /\ Segment "animals.sql" 9999 [("," ++ nl)%string]
             "  (9999,'name9999',1999.0,199.0)"
  /\ Segment "animals.sql" 10000
             [(";" ++ nl)%string; ("insert into animals values" ++ nl)%string]
             "  (10000,'name10000',2000.0,0.0)".
Proof.
  intros Hi.
  assert (Hpre : forall table custom,
            preceding table custom i =
            if i mod (row_cnt / 20) =? 0
            then [(";" ++ nl)%string; insert_header table]
            else [("," ++ nl)%string]).
  { intros table custom. unfold preceding, separator.
    destruct (Z.eqb_spec i 0); [lia |].
    destruct (Z.ltb_spec 0 i); [| lia].
    cbn [andb]. destruct (i mod (row_cnt / 20) =? 0); reflexivity. }
  split.
  { pose proof (segment_animals i ltac:(lia)) as H.
    rewrite Hpre in H. exact H. }
  split.
  { pose proof (segment_plants i ltac:(lia)) as H.
    rewrite Hpre in H. exact H. }
  split; [apply row_text_id; lia |].
  split.
  { destruct (plants_row_text i) as (c & e & Hc & He & ->); [lia |].
    apply row_text_id; lia. }
  split.
  - apply (segment_animals 9999). split; reflexivity || discriminate.
  - apply (segment_animals 10000). split; reflexivity || discriminate.
Qed.

(** C4 at [i = 10000], the first batch boundary. *)
Lemma C4_witness :
  0 < 10000 < row_cnt
  /\ Segment "animals.sql" 10000
             [(";" ++ nl)%string; ("insert into animals values" ++ nl)%string]
             (animals_row 10000)
  /\ Segment "plants.sql" 10000
             [(";" ++ nl)%string; ("insert into plants values" ++ nl)%string]
             (plants_row 10000).
Proof.
  assert (H : 0 < 10000 < row_cnt) by (unfold row_cnt; lia).
  split; [exact H |].
  pose proof (C4_rows_at_batch_boundaries_open_a_statement 10000 H) as C.
  split; [exact (proj1 C) | exact (proj1 (proj2 C))].
Defined.

(** C10: the first loop leaves [category] and [elevation] at the values of
    its last index, [199999 mod 4000 = 3999] and [199999 mod 200 = 199];
    row 0 of [plants.sql] is written with them; and the second pass run on
    its own, from the initial state, stops at its first row on the unbound
    name [category]. *)
Theorem C10_plants_row_0_has_the_last_values_of_the_first_loop :
  (exists st,
      animals_pass initial = Ok (tt, st)
      /\ category st = Some (Float (F ((row_cnt - 1) mod (row_cnt / 50))))
      /\ elevation st = Some (Float (F ((row_cnt - 1) mod (row_cnt / 1000)))))
  /\ (row_cnt - 1) mod (row_cnt / 50) = 3999
  /\ (row_cnt - 1) mod (row_cnt / 1000) = 199
  /\ row_fstring (Int 0) (Float (F 3999)) (Float (F 199))
     = Ok "  (0,'name0',3999.0,199.0)"
  /\ Row "plants.sql" 0 "  (0,'name0',3999.0,199.0)"
  /\ plants_pass initial = Raise (NameError "category").
Proof.
  split.
  { eexists. split; [apply animals_pass_ok |]. split; reflexivity. }
  split; [reflexivity |].
  split; [reflexivity |].
  split; [reflexivity |].
  split.
  { change "  (0,'name0',3999.0,199.0)" with (plants_row 0).
    apply row_plants. split; reflexivity || discriminate. }
  unfold plants_pass, initial.
  unfold bind at 1. unfold open_w. cbn [category elevation files].
  unfold bind at 1. rewrite (write_ok _ _ _ _ _ _ (lookup_upsert _ _ _)).
  unfold bind at 1. rewrite (write_ok _ _ _ _ _ _ (lookup_upsert _ _ _)).
  unfold bind at 1. rewrite (write_ok _ _ _ _ _ _ (lookup_upsert _ _ _)).
  unfold bind at 1. rewrite range_cons by exact row_cnt_pos.
  cbn [for_in]. unfold bind at 1. unfold plants_body. unfold bind at 1.
  rewrite (write_separator_ok _ _ _ _ _ 0 _
             ltac:(split; reflexivity || discriminate) (lookup_upsert _ _ _)).
  reflexivity.
Qed.

(** C5: in each file the [create table] statement, the hand-authored block
    and every insert statement of the generated rows, the last one
    included, is closed by exactly one semicolon; every insert statement
    holds at least one row; and row 0 comes straight after the first
    [insert into <table> values] header, with no separator. *)
Theorem C5_every_statement_is_closed_by_one_semicolon :
  statements_closed "animals.sql" "animals" custom_animals
  /\ statements_closed "plants.sql" "plants" custom_plants
  /\ Segment "animals.sql" 0
             [create_table "animals"; custom_animals; insert_header "animals"]
             (animals_row 0)
  /\ Segment "plants.sql" 0
             [create_table "plants"; custom_plants; insert_header "plants"]
             (plants_row 0).
Proof.
  assert (H0 : 0 <= 0 < row_cnt) by (split; reflexivity || discriminate).
  split.
  { destruct (layout "animals" custom_animals animals_row is_row_animals_row
                animals_row_clean Logic.eq_refl)
      as (stmts & Hread & Htext & _ & _ & _ & Hclosed).
    exists (expected_log "animals" custom_animals animals_row), stmts.
    split; [exact produces_animals |]. split; [reflexivity |].
    split; [exact Hread |]. split; [exact Htext |].
    split; [reflexivity |]. split; [reflexivity |]. split; [exact Hclosed |].
    assert (Hall : Forall (fun rs => closed_once (render_insert "animals" rs) = true)
                          stmts).
    { eapply Forall_impl; [| exact Hclosed]. intros rs [_ H]. exact H. }
    rewrite Htext, !count_char_append.
    rewrite (render_inserts_count "animals" stmts Hall).
    reflexivity. }
  split.
  { destruct (layout "plants" custom_plants plants_row is_row_plants_row
                plants_row_clean Logic.eq_refl)
      as (stmts & Hread & Htext & _ & _ & _ & Hclosed).
    exists (expected_log "plants" custom_plants plants_row), stmts.
    split; [exact produces_plants |]. split; [reflexivity |].
    split; [exact Hread |]. split; [exact Htext |].
    split; [reflexivity |]. split; [reflexivity |]. split; [exact Hclosed |].
    assert (Hall : Forall (fun rs => closed_once (render_insert "plants" rs) = true)
                          stmts).
    { eapply Forall_impl; [| exact Hclosed]. intros rs [_ H]. exact H. }
    rewrite Htext, !count_char_append.
    rewrite (render_inserts_count "plants" stmts Hall).
    reflexivity. }
  split; [exact (segment_animals 0 H0) | exact (segment_plants 0 H0)].
Qed.

(** C6: in each file the generated rows are read as exactly 20 insert
    statements of [row_cnt/20 = 10000] rows each, and 20 is
    [row_cnt] divided by the batch size, rounded up. *)
Theorem C6_twenty_statements_of_ten_thousand_rows :
  batched "animals.sql" "animals" 20 10000
  /\ batched "plants.sql" "plants" 20 10000
  /\ (row_cnt + row_cnt / 20 - 1) / (row_cnt / 20) = 20
  /\ row_cnt / 20 = 10000.
Proof.
  split.
  { destruct (layout "animals" custom_animals animals_row is_row_animals_row
                animals_row_clean Logic.eq_refl)
      as (stmts & Hread & _ & Hlen & Hsize & Hrows & _).
    exists (expected_log "animals" custom_animals animals_row), stmts.
    rewrite rows_animals. auto using produces_animals. }
  split.
  { destruct (layout "plants" custom_plants plants_row is_row_plants_row
                plants_row_clean Logic.eq_refl)
      as (stmts & Hread & _ & Hlen & Hsize & Hrows & _).
    exists (expected_log "plants" custom_plants plants_row), stmts.
    rewrite rows_plants. auto using produces_plants. }
  split; reflexivity.
Qed.

(** C7: in each file the ids of the generated rows are those of
    [range row_cnt], that is 0, 1, ..., [row_cnt - 1] in this order, each
    once; the three hand-authored rows have the ids -1, -2 and -3; and no
    id occurs twice among all the rows of the file. *)
Theorem C7_generated_ids_are_the_range_and_miss_the_seed_ids :
  ids_distinct "animals.sql" custom_animals
  /\ ids_distinct "plants.sql" custom_plants
  /\ List.length (range row_cnt) = Z.to_nat row_cnt
  /\ NoDup (range row_cnt)
  /\ nth_error (range row_cnt) 0 = Some 0
  /\ nth_error (range row_cnt) (Z.to_nat (row_cnt - 1)) = Some (row_cnt - 1).
Proof.
  split.
  { exists (expected_log "animals" custom_animals animals_row).
    split; [exact produces_animals |].
    rewrite map_app, rows_animals, animals_ids.
    split; [reflexivity |]. split; [reflexivity |].
    change (map row_id (block_rows custom_animals))
      with [Some (-1); Some (-2); Some (-3)].
    apply ids_NoDup. }
  split.
  { exists (expected_log "plants" custom_plants plants_row).
    split; [exact produces_plants |].
    rewrite map_app, rows_plants, plants_ids.
    split; [reflexivity |]. split; [reflexivity |].
    change (map row_id (block_rows custom_plants))
      with [Some (-1); Some (-2); Some (-3)].
    apply ids_NoDup. }
  split; [apply range_length |].
  split; [apply range_NoDup |].
  split.
  - apply (nth_error_range row_cnt 0). split; reflexivity || discriminate.
  - apply nth_error_range. split; reflexivity || discriminate.
Qed.

(** C8: each file opens with one [create table] statement for its table,
    declaring the four columns [id int primary key], [name varchar(20)],
    [category int], [elevation int] and the three keys on [name],
    [category] and [elevation]; then comes its block of exactly three
    hand-authored rows; all that follows is the insert statements of the
    [row_cnt] generated rows. *)
Theorem C8_files_open_with_the_schema_and_three_fixed_rows :
  create_table "animals"
  = ("create table animals (id int primary key, name varchar(20), category int, elevation int, key (name), key (category), key (elevation))"
       ++ nl ++ ";")%string
  /\ create_table "plants"
     = ("create table plants (id int primary key, name varchar(20), category int, elevation int, key (name), key (category), key (elevation))"
          ++ nl ++ ";")%string
  /\ declared_items (create_table "animals")
     = Some ["id int primary key"; " name varchar(20)"; " category int";
             " elevation int"; " key (name)"; " key (category)";
             " key (elevation)"]
  /\ declared_items (create_table "plants")
     = declared_items (create_table "animals")
  /\ block_rows custom_animals
     = ["  (-1,'goat',2,4),"; "  (-2,'cow',1,3),"; "  (-3,'chicken',0,1);"]
  /\ block_rows custom_plants
     = ["  (-1,'sunflower', 3,1),"; "  (-2,'carnation',0,1),";
        "  (-3,'wildflower',4,3);"]
  /\ schema_then_rows "animals.sql" "animals" custom_animals
  /\ schema_then_rows "plants.sql" "plants" custom_plants.
Proof.
  do 6 (split; [reflexivity |]).
  split.
  - destruct (layout "animals" custom_animals animals_row is_row_animals_row
                animals_row_clean Logic.eq_refl)
      as (stmts & Hread & _ & _ & _ & Hrows & _).
    exists (expected_log "animals" custom_animals animals_row),
           (insert_header "animals"
              :: generated "animals" animals_row (range row_cnt)
              ++ [(";" ++ nl)%string]),
           stmts.
    rewrite rows_animals, length_map, range_length.
    split; [exact produces_animals |]. split; [reflexivity |].
    split; [exact Hread |]. split; [exact Hrows | reflexivity].
  - destruct (layout "plants" custom_plants plants_row is_row_plants_row
                plants_row_clean Logic.eq_refl)
      as (stmts & Hread & _ & _ & _ & Hrows & _).
    exists (expected_log "plants" custom_plants plants_row),
           (insert_header "plants"
              :: generated "plants" plants_row (range row_cnt)
              ++ [(";" ++ nl)%string]),
           stmts.
    rewrite rows_plants, length_map, range_length.
    split; [exact produces_plants |]. split; [reflexivity |].
    split; [exact Hread |]. split; [exact Hrows | reflexivity].
Qed.

(** C9: for every generated row [i] of either file, the name field is the
    quoted text [name] followed by the decimal digits of [i] (digits that
    read back as [i]), and that text is at most 20 characters long. *)
Theorem C9_names_are_name_and_the_id_within_twenty_characters (i : Z) :
  0 <= i < row_cnt ->
  forall file,
    file = "animals.sql" \/ file = "plants.sql" ->
    exists row id quoted c e,
      Row file i row
      /\ row_fields row = Some [id; quoted; c; e]
      /\ unquote quoted = Some ("name" ++ str_int i)%string
      /\ all_chars is_digit (str_int i) = true
      /\ option_map Z.of_int (NilZero.int_of_string (str_int i)) = Some i
      /\ (String.length ("name" ++ str_int i) <= 20)%nat.
Proof.
  intros Hi file Hfile.
  assert (Hunquote : unquote ("'name" ++ str_int i ++ "'")
                     = Some ("name" ++ str_int i)%string).
  { change (unquote ("'name" ++ str_int i ++ "'"))
      with (strip_last "'" ("name" ++ str_int i ++ "'")).
    rewrite <- append_assoc.
    rewrite (strip_last_app "'" ("name" ++ str_int i) "'" "" Logic.eq_refl).
    rewrite append_nil_r. reflexivity. }
  assert (Hlen : (String.length ("name" ++ str_int i) <= 20)%nat).
  { rewrite length_append.
    pose proof (str_int_length i 6) as H6.
    assert (Hi6 : 0 <= i < 10 ^ Z.of_nat 6) by (unfold row_cnt in Hi; simpl; lia).
    specialize (H6 Hi6 ltac:(lia)). simpl String.length. lia. }
  assert (Hrow : exists c e, Row file i (row_text i c e) /\ 0 <= c /\ 0 <= e).
  { destruct Hfile as [-> | ->].
    - exists (i mod (row_cnt / 50)), (i mod (row_cnt / 1000)).
      split; [apply row_animals; assumption |].
      split; apply Z.mod_pos_bound; reflexivity.
    - destruct (plants_row_text i Hi) as (c & e & Hc & He & Heq).
      exists c, e. rewrite <- Heq.
      split; [apply row_plants; assumption | lia]. }
  destruct Hrow as (c & e & Hrow & Hc & He).
  exists (row_text i c e), (str_int i), ("'name" ++ str_int i ++ "'")%string,
         (str_int c ++ ".0")%string, (str_int e ++ ".0")%string.
  split; [exact Hrow |].
  split; [apply row_text_fields; lia |].
  split; [exact Hunquote |].
  split; [apply str_int_digits; lia |].
  split; [apply read_str_int; lia | exact Hlen].
Qed.

(** C9 at [i = 199999], the longest name, in [plants.sql]. *)
Lemma C9_witness :
  0 <= 199999 < row_cnt
  /\ exists row id quoted c e,
       Row "plants.sql" 199999 row
       /\ row_fields row = Some [id; quoted; c; e]
       /\ unquote quoted = Some ("name" ++ str_int 199999)%string
       /\ all_chars is_digit (str_int 199999) = true
       /\ option_map Z.of_int (NilZero.int_of_string (str_int 199999))
          = Some 199999
       /\ (String.length ("name" ++ str_int 199999) <= 20)%nat.
Proof.
  assert (H : 0 <= 199999 < row_cnt) by (unfold row_cnt; lia).
  split; [exact H |].
  exact (C9_names_are_name_and_the_id_within_twenty_characters
           199999 H "plants.sql" (or_intror Logic.eq_refl)).
Defined.

(* ===================================================================== *)
(** * Further properties of the script                                    *)
(* ===================================================================== *)

Section Values.

Lemma read_decimal_str_int (z : Z) :
  0 <= z -> read_decimal (str_int z ++ ".0") = Some z.
Proof.
  intros Hz. unfold read_decimal.
  change (str_int z ++ ".0")%string with (str_int z ++ "." ++ "0")%string.
  rewrite <- append_assoc.
  rewrite (strip_last_app "0" (str_int z ++ ".") "0" "" Logic.eq_refl).
  rewrite append_nil_r.
  rewrite (strip_last_app "." (str_int z) "." "" Logic.eq_refl).
  rewrite append_nil_r. apply read_str_int. assumption.
Qed.

Lemma row_text_values (i c e : Z) :
  0 <= i -> 0 <= c -> 0 <= e -> row_values (row_text i c e) = Some (c, e).
Proof.
  intros Hi Hc He. unfold row_values.
  rewrite row_text_fields by assumption.
  rewrite !read_decimal_str_int by assumption. reflexivity.
Qed.

Lemma row_text_name (i c e : Z) :
  0 <= i -> 0 <= c -> 0 <= e ->
  row_name (row_text i c e) = Some ("name" ++ str_int i)%string.
Proof.
  intros Hi Hc He. unfold row_name.
  rewrite row_text_fields by assumption.
  change (unquote ("'name" ++ str_int i ++ "'"))
    with (strip_last "'" ("name" ++ str_int i ++ "'")).
  rewrite <- append_assoc.
  rewrite (strip_last_app "'" ("name" ++ str_int i) "'" "" Logic.eq_refl).
  rewrite append_nil_r. reflexivity.
Qed.

Lemma range_last (n : Z) : 0 < n -> range n = range (n - 1) ++ [n - 1].
Proof.
  intros Hn. rewrite <- range_snoc by lia. f_equal. lia.
Qed.

Lemma animals_row_values (i : Z) :
  0 <= i -> row_values (animals_row i) = Some (values_at i).
Proof.
  intros Hi. apply row_text_values; [assumption | |];
    apply Z.mod_pos_bound; reflexivity.
Qed.

Lemma plants_row_values (i : Z) :
  0 <= i ->
  row_values (plants_row i)
  = Some (values_at (if i =? 0 then row_cnt - 1 else i - 1)).
Proof.
  intros Hi. unfold plants_row.
  destruct (Z.eqb_spec i 0) as [-> | Hne];
    (apply row_text_values; [lia | |]; apply Z.mod_pos_bound; reflexivity).
Qed.

Lemma animals_values :
  map row_values (map animals_row (range row_cnt))
  = map (fun i => Some (values_at i)) (range row_cnt).
Proof.
  rewrite map_map. apply map_ext_in. intros i Hi. apply in_range in Hi.
  apply animals_row_values. lia.
Qed.

Lemma plants_values :
  map row_values (map plants_row (range row_cnt))
  = Some (values_at (row_cnt - 1))
      :: map (fun i => Some (values_at i)) (range (row_cnt - 1)).
Proof.
  rewrite map_map, range_cons by exact row_cnt_pos.
  cbn [map].
  rewrite (plants_row_values 0) by lia.
  change (0 =? 0) with true. cbv iota.
  apply (f_equal (cons (Some (values_at (row_cnt - 1))))).
  unfold range. rewrite <- seq_shift, !map_map.
  apply map_ext. intros k.
  rewrite plants_row_values by lia.
  destruct (Z.eqb_spec (Z.of_nat (S k)) 0) as [H | _]; [lia |].
  replace (Z.of_nat (S k) - 1) with (Z.of_nat k) by lia. reflexivity.
Qed.

Lemma animals_values_snoc :
  map (fun i => Some (values_at i)) (range row_cnt)
  = map (fun i => Some (values_at i)) (range (row_cnt - 1))
      ++ [Some (values_at (row_cnt - 1))].
Proof.
  rewrite (range_last row_cnt row_cnt_pos) at 1.
  rewrite map_app. reflexivity.
Qed.

End Values.

Section Counting.

Lemma seq_offset (n m s : nat) :
  map Z.of_nat (seq (n + s) m)
  = map (fun k => Z.of_nat n + Z.of_nat k) (seq s m).
Proof.
  revert s. induction m as [ | m IH]; intros s; [reflexivity |].
  cbn [seq map]. rewrite Nat2Z.inj_add.
  apply (f_equal (cons (Z.of_nat n + Z.of_nat s))).
  replace (S (n + s)) with (n + S s)%nat by lia. apply IH.
Qed.

Lemma range_app (a b : Z) :
  0 <= a -> 0 <= b -> range (a + b) = range a ++ map (Z.add a) (range b).
Proof.
  intros Ha Hb. unfold range.
  rewrite Z2Nat.inj_add, seq_app, map_app by assumption.
  apply (f_equal (app (map Z.of_nat (seq 0 (Z.to_nat a))))).
  replace (0 + Z.to_nat a)%nat with (Z.to_nat a + 0)%nat by lia.
  rewrite seq_offset, map_map. apply map_ext. intros k. lia.
Qed.

Lemma length_filter_map {A B} (p : B -> bool) (f : A -> B) (l : list A) :
  List.length (filter p (map f l))
  = List.length (filter (fun x => p (f x)) l).
Proof.
  induction l as [ | x l IH]; [reflexivity |].
  cbn [map filter]. destruct (p (f x)); cbn [List.length]; rewrite IH;
    reflexivity.
Qed.

(** In [0, n) exactly one index equals a given [c] of that interval. *)
Lemma count_index (c : Z) (n : nat) :
  0 <= c ->
  List.length (filter (fun j => j =? c) (range (Z.of_nat n)))
  = if c <? Z.of_nat n then 1%nat else 0%nat.
Proof.
  intros Hc. induction n as [ | n IH].
  - destruct (Z.ltb_spec c (Z.of_nat 0)); [lia | reflexivity].
  - replace (Z.of_nat (S n)) with (Z.of_nat n + 1) by lia.
    rewrite range_snoc, filter_app, length_app, IH by lia.
    cbn [filter].
    destruct (Z.eqb_spec (Z.of_nat n) c) as [Heq | Hne];
      destruct (Z.ltb_spec c (Z.of_nat n));
      destruct (Z.ltb_spec c (Z.of_nat n + 1)); cbn [List.length]; lia.
Qed.

(** Among the first [k * m] indices, [k] have a given residue modulo [m]. *)
Lemma count_residue (m c : Z) (k : nat) :
  0 <= c < m ->
  List.length (filter (fun i => i mod m =? c) (range (Z.of_nat k * m))) = k.
Proof.
  intros Hc. induction k as [ | k IH]; [reflexivity |].
  replace (Z.of_nat (S k) * m) with (Z.of_nat k * m + m) by lia.
  rewrite range_app, filter_app, length_app, IH by nia.
  rewrite length_filter_map.
  rewrite (filter_ext_in _ (fun j => j =? c)).
  - replace m with (Z.of_nat (Z.to_nat m)) at 1 by lia.
    rewrite count_index by lia.
    destruct (Z.ltb_spec c (Z.of_nat (Z.to_nat m))); lia.
  - intros j Hj. apply in_range in Hj.
    rewrite Z.add_comm, Z.mod_add, Z.mod_small by lia. reflexivity.
Qed.

Lemma count_residue_upto (n m c : Z) (k : nat) :
  n = Z.of_nat k * m -> 0 <= c < m ->
  List.length (filter (fun i => i mod m =? c) (range n)) = k.
Proof. intros ->. apply count_residue. Qed.

Lemma NoDup_map_injective_in {A B} (f : A -> B) (l : list A) :
  (forall x y, In x l -> In y l -> f x = f y -> x = y) ->
  NoDup l -> NoDup (map f l).
Proof.
  intros Hinj H. induction H as [ | a l Ha _ IH]; [constructor |].
  cbn [map]. constructor.
  - intros Hin. apply in_map_iff in Hin. destruct Hin as (b & Hb & Hin).
    apply Ha. rewrite <- (Hinj b a); auto using in_eq, in_cons.
  - apply IH. intros x y Hx Hy. apply Hinj; auto using in_cons.
Qed.

Lemma str_int_injective (i j : Z) :
  0 <= i -> 0 <= j -> str_int i = str_int j -> i = j.
Proof.
  intros Hi Hj H. pose proof (read_str_int i Hi) as Ri.
  rewrite H, read_str_int in Ri by assumption. congruence.
Qed.


End Counting.

Section Distribution.

(** The second file holds the same values as the first, moved by one row,
    so any test on values holds for as many rows in both. *)
Lemma plants_count (q : option (Z * Z) -> bool) :
  List.length (filter q (map row_values (map plants_row (range row_cnt))))
  = List.length (filter q (map row_values (map animals_row (range row_cnt)))).
Proof.
  rewrite plants_values, animals_values, animals_values_snoc.
  rewrite filter_app, length_app. cbn [filter].
  destruct (q (Some (values_at (row_cnt - 1)))); cbn [List.length]; lia.
Qed.

Lemma animals_category_count (c : Z) :
  0 <= c < row_cnt / 50 ->
  List.length (filter (has_category c) (map animals_row (range row_cnt)))
  = 50%nat.
Proof.
  intros Hc. rewrite length_filter_map.
  rewrite (filter_ext_in _ (fun i => i mod (row_cnt / 50) =? c)).
  - apply count_residue_upto; [reflexivity | assumption].
  - intros i Hi. apply in_range in Hi. unfold has_category.
    rewrite animals_row_values by lia. reflexivity.
Qed.

Lemma animals_elevation_count (e : Z) :
  0 <= e < row_cnt / 1000 ->
  List.length (filter (has_elevation e) (map animals_row (range row_cnt)))
  = 1000%nat.
Proof.
  intros He. rewrite length_filter_map.
  rewrite (filter_ext_in _ (fun i => i mod (row_cnt / 1000) =? e)).
  - apply count_residue_upto; [reflexivity | assumption].
  - intros i Hi. apply in_range in Hi. unfold has_elevation.
    rewrite animals_row_values by lia. reflexivity.
Qed.

Lemma count_by_values (p : string -> bool) (q : option (Z * Z) -> bool)
      (l : list string) :
  (forall r, p r = q (row_values r)) ->
  List.length (filter p l) = List.length (filter q (map row_values l)).
Proof.
  intros H. rewrite length_filter_map. f_equal. apply filter_ext. exact H.
Qed.

End Distribution.

(** X1: for every index [i] of the first loop, row [i] of [animals.sql]
    is the f-string of [i] with the values Python computes for
    [i % (row_cnt / 50)] and [i % (row_cnt / 1000)], and it reads back as
    category [i mod (row_cnt/50)] and elevation [i mod (row_cnt/1000)]. *)
Theorem X1_animals_rows_carry_the_values_of_their_index (i : Z) :
  0 <= i < row_cnt ->
  exists c e row,
    rbind (truediv (Int row_cnt) (Int 50)) (mod_ (Int i)) = Ok c
    /\ rbind (truediv (Int row_cnt) (Int 1000)) (mod_ (Int i)) = Ok e
    /\ row_fstring (Int i) c e = Ok row
    /\ Row "animals.sql" i row
    /\ row_values row = Some (i mod (row_cnt / 50), i mod (row_cnt / 1000)).
Proof.
  intros Hi. pose proof row_cnt_small as Hsmall.
  assert (Hc : 0 <= i mod (row_cnt / 50) < 2 ^ 53)
    by (apply mod_small; split; reflexivity).
  assert (He : 0 <= i mod (row_cnt / 1000) < 2 ^ 53)
    by (apply mod_small; split; reflexivity).
  exists (Float (F (i mod (row_cnt / 50)))),
         (Float (F (i mod (row_cnt / 1000)))), (animals_row i).
  split.
  { rewrite category_modulus. cbn [rbind].
    apply mod_int_float; [lia | split; reflexivity]. }
  split.
  { rewrite elevation_modulus. cbn [rbind].
    apply mod_int_float; [lia | split; reflexivity]. }
  split; [apply row_fstring_ok; assumption |].
  split; [apply row_animals; assumption |].
  apply (animals_row_values i). lia.
Qed.

(** X1 at [i = 4000], where both values wrap around to 0. *)
Lemma X1_witness :
  0 <= 4000 < row_cnt
  /\ exists c e row,
       rbind (truediv (Int row_cnt) (Int 50)) (mod_ (Int 4000)) = Ok c
       /\ rbind (truediv (Int row_cnt) (Int 1000)) (mod_ (Int 4000)) = Ok e
       /\ row_fstring (Int 4000) c e = Ok row
       /\ Row "animals.sql" 4000 row
       /\ row_values row
          = Some (4000 mod (row_cnt / 50), 4000 mod (row_cnt / 1000)).
Proof.
  assert (H : 0 <= 4000 < row_cnt) by (unfold row_cnt; lia).
  split; [exact H |].
  exact (X1_animals_rows_carry_the_values_of_their_index 4000 H).
Defined.

(** X2: read row by row, the (category, elevation) pairs of [plants.sql]
    are those of [animals.sql] moved down by one row: the last pair of
    [animals.sql] comes first, then all its other pairs in order.  Every
    row of both files reads back as a pair. *)
Theorem X2_plants_values_are_the_animals_values_moved_by_one_row :
  exists animals plants pairs last,
    Produces "animals.sql" animals
    /\ Produces "plants.sql" plants
    /\ map row_values (rows animals) = map Some pairs ++ [Some last]
    /\ map row_values (rows plants) = Some last :: map Some pairs
    /\ last = values_at (row_cnt - 1)
    /\ pairs = map values_at (range (row_cnt - 1)).
Proof.
  exists (expected_log "animals" custom_animals animals_row),
         (expected_log "plants" custom_plants plants_row),
         (map values_at (range (row_cnt - 1))), (values_at (row_cnt - 1)).
  split; [exact produces_animals |]. split; [exact produces_plants |].
  rewrite rows_animals, rows_plants, animals_values, plants_values,
    animals_values_snoc, !map_map.
  split; [reflexivity |]. split; [reflexivity |]. split; reflexivity.
Qed.

(** X3: in both files every generated row has a category in
    [0, row_cnt/50) and an elevation in [0, row_cnt/1000), and its
    elevation is its category modulo [row_cnt/1000]: the two columns are
    not independent. *)
Theorem X3_elevation_is_the_category_modulo_200 (i : Z) :
  0 <= i < row_cnt ->
  forall file,
    file = "animals.sql" \/ file = "plants.sql" ->
    exists row c e,
      Row file i row
      /\ row_values row = Some (c, e)
      /\ 0 <= c < row_cnt / 50
      /\ 0 <= e < row_cnt / 1000
      /\ e = c mod (row_cnt / 1000).
Proof.
  intros Hi file Hfile.
  assert (Hval : forall j,
            0 <= fst (values_at j) < row_cnt / 50
            /\ 0 <= snd (values_at j) < row_cnt / 1000
            /\ snd (values_at j) = fst (values_at j) mod (row_cnt / 1000)).
  { intros j. unfold values_at. cbn [fst snd].
    split; [apply Z.mod_pos_bound; reflexivity |].
    split; [apply Z.mod_pos_bound; reflexivity |].
    symmetry. apply Z.mod_mod_divide. exists 20. reflexivity. }
  destruct Hfile as [-> | ->].
  - exists (animals_row i), (fst (values_at i)), (snd (values_at i)).
    split; [apply row_animals; assumption |].
    split; [apply (animals_row_values i); lia | apply Hval].
  - set (j := if i =? 0 then row_cnt - 1 else i - 1).
    exists (plants_row i), (fst (values_at j)), (snd (values_at j)).
    split; [apply row_plants; assumption |].
    split; [| apply Hval].
    rewrite plants_row_values by lia. fold j.
    destruct (values_at j). reflexivity.
Qed.

(** X3 at [i = 0], where the second file has the values left by the first
    loop. *)
Lemma X3_witness :
  0 <= 0 < row_cnt
  /\ exists row c e,
       Row "plants.sql" 0 row
       /\ row_values row = Some (c, e)
       /\ 0 <= c < row_cnt / 50
       /\ 0 <= e < row_cnt / 1000
       /\ e = c mod (row_cnt / 1000).
Proof.
  assert (H : 0 <= 0 < row_cnt) by (unfold row_cnt; lia).
  split; [exact H |].
  exact (X3_elevation_is_the_category_modulo_200
           0 H "plants.sql" (or_intror Logic.eq_refl)).
Defined.

(** X4: in both files each category of [0, row_cnt/50) is carried by
    exactly 50 generated rows and each elevation of [0, row_cnt/1000) by
    exactly 1000. *)
Theorem X4_every_category_has_50_rows_and_every_elevation_1000 (c e : Z) :
  0 <= c < row_cnt / 50 -> 0 <= e < row_cnt / 1000 ->
  occurrences "animals.sql" (has_category c) 50
  /\ occurrences "animals.sql" (has_elevation e) 1000
  /\ occurrences "plants.sql" (has_category c) 50
  /\ occurrences "plants.sql" (has_elevation e) 1000.
Proof.
  intros Hc He.
  split.
  { exists (expected_log "animals" custom_animals animals_row).
    split; [exact produces_animals |].
    rewrite rows_animals. apply animals_category_count. assumption. }
  split.
  { exists (expected_log "animals" custom_animals animals_row).
    split; [exact produces_animals |].
    rewrite rows_animals. apply animals_elevation_count. assumption. }
  split.
  { exists (expected_log "plants" custom_plants plants_row).
    split; [exact produces_plants |]. rewrite rows_plants.
    rewrite (count_by_values (has_category c)
               (fun v => match v with
                         | Some (c', _) => c' =? c
                         | None => false
                         end)) by reflexivity.
    rewrite plants_count.
    rewrite <- (count_by_values (has_category c)) by reflexivity.
    apply animals_category_count. assumption. }
  exists (expected_log "plants" custom_plants plants_row).
  split; [exact produces_plants |]. rewrite rows_plants.
  rewrite (count_by_values (has_elevation e)
             (fun v => match v with
                       | Some (_, e') => e' =? e
                       | None => false
                       end)) by reflexivity.
  rewrite plants_count.
  rewrite <- (count_by_values (has_elevation e)) by reflexivity.
  apply animals_elevation_count. assumption.
Qed.

(** X4 at the category 3999 and the elevation 199, the pair the second
    file starts with. *)
Lemma X4_witness :
  0 <= 3999 < row_cnt / 50
  /\ 0 <= 199 < row_cnt / 1000
  /\ occurrences "plants.sql" (has_category 3999) 50
  /\ occurrences "plants.sql" (has_elevation 199) 1000.
Proof.
  assert (Hc : 0 <= 3999 < row_cnt / 50) by (split; reflexivity || discriminate).
  assert (He : 0 <= 199 < row_cnt / 1000) by (split; reflexivity || discriminate).
  split; [exact Hc |]. split; [exact He |].
  pose proof (X4_every_category_has_50_rows_and_every_elevation_1000
                3999 199 Hc He) as H.
  split; [exact (proj1 (proj2 (proj2 H))) | exact (proj2 (proj2 (proj2 H)))].
Defined.


(** X6: for every index below [2^53], zero and negative ones included, the
    test [i > 0 and i % insert_batch_cnt == 0], made on floats, does not
    raise, changes nothing, and holds exactly when [i] is a positive
    multiple of [row_cnt/20 = 10000]. *)
Theorem X6_the_float_boundary_test_is_the_integer_one (i : Z) (st : state) :
  i < 2 ^ 53 ->
  at_batch_boundary i st = Ok ((0 <? i) && (i mod (row_cnt / 20) =? 0), st).
Proof.
  intros Hi. unfold at_batch_boundary.
  destruct (Z.ltb_spec 0 i) as [Hpos | _]; [| reflexivity].
  unfold bind, lift. rewrite insert_batch_cnt_value.
  rewrite mod_int_float by (split; reflexivity || lia).
  rewrite eq_F_int by (apply mod_small; split; reflexivity).
  reflexivity.
Qed.

(** X6 at [i = 30000], a multiple of the batch size. *)
Lemma X6_witness :
  30000 < 2 ^ 53
  /\ at_batch_boundary 30000 initial
     = Ok ((0 <? 30000) && (30000 mod (row_cnt / 20) =? 0), initial).
Proof.
  assert (H : 30000 < 2 ^ 53) by reflexivity.
  split; [exact H |].
  exact (X6_the_float_boundary_test_is_the_integer_one 30000 initial H).
Defined.

(** X7: in both files the name of generated row [i] is [name] followed by
    the digits of [i], and no two generated rows of a file have the same
    name. *)
Theorem X7_generated_names_are_pairwise_distinct :
  (exists log,
      Produces "animals.sql" log
      /\ map row_name (rows log)
         = map (fun i => Some ("name" ++ str_int i)%string) (range row_cnt)
      /\ NoDup (map row_name (rows log)))
  /\ (exists log,
        Produces "plants.sql" log
        /\ map row_name (rows log)
           = map (fun i => Some ("name" ++ str_int i)%string) (range row_cnt)
        /\ NoDup (map row_name (rows log))).
Proof.
  assert (Hdistinct :
            NoDup (map (fun i => Some ("name" ++ str_int i)%string)
                       (range row_cnt))).
  { apply NoDup_map_injective_in; [| apply range_NoDup].
    intros x y Hx Hy Heq. apply in_range in Hx. apply in_range in Hy.
    injection Heq as Heq. apply str_int_injective; [lia | lia | exact Heq]. }
  split.
  - exists (expected_log "animals" custom_animals animals_row).
    split; [exact produces_animals |].
    assert (Hnames : map row_name (rows (expected_log "animals" custom_animals
                                                      animals_row))
                     = map (fun i => Some ("name" ++ str_int i)%string)
                           (range row_cnt)).
    { rewrite rows_animals, map_map. apply map_ext_in. intros i Hi.
      apply in_range in Hi.
      apply row_text_name; [lia | |]; apply Z.mod_pos_bound; reflexivity. }
    split; [exact Hnames |]. rewrite Hnames. exact Hdistinct.
  - exists (expected_log "plants" custom_plants plants_row).
    split; [exact produces_plants |].
    assert (Hnames : map row_name (rows (expected_log "plants" custom_plants
                                                      plants_row))
                     = map (fun i => Some ("name" ++ str_int i)%string)
                           (range row_cnt)).
    { rewrite rows_plants, map_map. apply map_ext_in. intros i Hi.
      apply in_range in Hi.
      destruct (plants_row_text i Hi) as (c & e & Hc & He & ->).
      apply row_text_name; lia. }
    split; [exact Hnames |]. rewrite Hnames. exact Hdistinct.
Qed.

Section SecondPassAlone.





End SecondPassAlone.




